(** * Notebook execution backend: path sandbox, prefix execution, output text

    A shallow embedding of [backend/notebooks.py] (and of its older sibling
    in [v2main.py]): the path sandbox [_safe_nb_path], the document store
    [_read_nb] / [_write_nb], the engine wrapper [_execute], the routes
    [get_notebook], [save_notebook], [run_all], [run_cell] and
    [suggest_fix], the output flattener [_outputs_to_text], and the notes
    and sources routes of [v2main.py].

    Modelling conventions.
    - Python [str] is [string]; a character is a code point below 256.
    - [pathlib] paths are pure POSIX paths: an anchor and a list of
      components.  [Path.resolve] is modelled on a file system without
      symbolic links, where it is the lexical normalisation of [..].
    - Notebook cells are Python objects that are mutated in place, so a
      notebook in memory is a list of addresses into a heap of cells.
    - The Jupyter kernel behind [nbclient.NotebookClient] is a parameter
      (record [Kernel]); the client loop around it is written out.
    - The language model behind [suggest_fix], the clock and the uuid
      source of the notes routes are parameters as well.
    - Only files are entries of the disk.  Directories exist where they
      are needed, and a file that stands where a directory is needed
      makes [mkdir] raise.
    - The notebook metadata is one opaque value.  [nbclient] records
      the kernel's [language_info] in it when a kernel starts; that
      write is not modelled: here a run leaves the metadata as it was
      stored.  The properties of a run are about the cells.
    - [nbformat] keeps multi-line text joined in memory and splits it
      in the file.  A document is held here as it was handed over; the
      property about reading back what was saved is stated for
      documents in the joined form. *)

From Stdlib Require Import ZArith Ascii String List Lia.
From stdpp Require Import base option list gmap strings.

Open Scope string_scope.
Open Scope list_scope.
Open Scope Z_scope.

(** [s + t] on Python strings. *)
Infix "+:+" := String.append (at level 60, right associativity).

(** ** Python string methods *)

Module PyStr.

Definition backslash : ascii := "092"%char.
Definition newline : string := String "010"%char EmptyString.
Definition NUL : ascii := "000"%char.

(** [str.isspace] on one character (code points below 256). *)
Definition isspace (c : ascii) : bool :=
  let n := nat_of_ascii c in
  ((9 <=? n)%nat && (n <=? 13)%nat)
  || ((28 <=? n)%nat && (n <=? 32)%nat)
  || (n =? 133)%nat || (n =? 160)%nat.

(** [s.lstrip()] *)
Fixpoint lstrip (s : string) : string :=
  match s with
  | String c r => if isspace c then lstrip r else s
  | EmptyString => EmptyString
  end.

(** [s.rstrip()] *)
Fixpoint rstrip (s : string) : string :=
  match s with
  | String c r =>
      match rstrip r with
      | EmptyString => if isspace c then EmptyString else String c EmptyString
      | r' => String c r'
      end
  | EmptyString => EmptyString
  end.

(** [s.strip()] *)
Definition strip (s : string) : string := rstrip (lstrip s).

(** [s.lstrip(c)] for a one-character argument. *)
Fixpoint lstrip_char (a : ascii) (s : string) : string :=
  match s with
  | String c r => if Ascii.eqb c a then lstrip_char a r else s
  | EmptyString => EmptyString
  end.

(** [s.replace(a, b)] for one-character arguments. *)
Fixpoint replace (a b : ascii) (s : string) : string :=
  match s with
  | String c r => String (if Ascii.eqb c a then b else c) (replace a b r)
  | EmptyString => EmptyString
  end.

(** [s.endswith(suf)] *)
Fixpoint endswith (s suf : string) : bool :=
  String.eqb s suf ||
  match s with
  | String _ r => endswith r suf
  | EmptyString => false
  end.

(** [s.startswith(pre)] *)
Definition startswith (s pre : string) : bool := String.prefix pre s.

(** [s.split(a)] for a one-character separator. *)
Fixpoint split (a : ascii) (s : string) : list string :=
  match s with
  | String c r =>
      if Ascii.eqb c a then EmptyString :: split a r
      else match split a r with
           | h :: t => String c h :: t
           | [] => [String c EmptyString]
           end
  | EmptyString => [EmptyString]
  end.

(** [sep.join(l)] *)
Definition join (sep : string) (l : list string) : string :=
  String.concat sep l.

(** [a in s] for a character. *)
Fixpoint contains (a : ascii) (s : string) : bool :=
  match s with
  | String c r => Ascii.eqb c a || contains a r
  | EmptyString => false
  end.

End PyStr.

(** ** pathlib: pure POSIX paths *)

(** A resolved or unresolved absolute path: [dslash] records the POSIX
    anchor of exactly two slashes, which pathlib keeps apart from [/]. *)
Record PosixPath := mkPath { dslash : bool; parts : list string }.

Global Instance PosixPath_eq_dec : EqDecision PosixPath.
Proof. solve_decision. Defined.

Global Instance PosixPath_countable : Countable PosixPath.
Proof.
  apply (inj_countable' (fun p => (dslash p, parts p))
                        (fun t => mkPath t.1 t.2)).
  by intros [].
Defined.

Module PathLib.

(** Components pathlib keeps when it parses a string: empty components
    and [.] are dropped, [..] stays. *)
Definition keeps (c : string) : bool :=
  negb (String.eqb c "") && negb (String.eqb c ".").

Definition parse_parts (s : string) : list string :=
  List.filter keeps (PyStr.split "/" s).

(** The anchor of a string: [None] when relative, [Some true] for
    exactly two leading slashes, [Some false] for any other absolute
    string. *)
Definition parse_anchor (s : string) : option bool :=
  if PyStr.startswith s "/" then
    Some (PyStr.startswith s "//" && negb (PyStr.startswith s "///"))
  else None.

(** [base / s] *)
Definition joinpath (base : PosixPath) (s : string) : PosixPath :=
  match parse_anchor s with
  | Some d => mkPath d (parse_parts s)
  | None => mkPath (dslash base) (parts base ++ parse_parts s)
  end.

(** Lexical resolution of [..]: [acc] is the reversed stack of the
    components walked so far; [..] at the root stays at the root. *)
Fixpoint resolve_go (acc : list string) (cs : list string) : list string :=
  match cs with
  | [] => rev acc
  | c :: rest =>
      if String.eqb c ".." then resolve_go (tail acc) rest
      else if keeps c then resolve_go (c :: acc) rest
      else resolve_go acc rest
  end.

(** [p.resolve()]: the result is anchored at the single slash, also
    when [p] begins with two ([os.path.realpath] restarts from [/]). *)
Definition resolve (p : PosixPath) : PosixPath :=
  mkPath false (resolve_go [] (parts p)).

(** [p.parents]: the proper ancestors, nearest first. *)
Fixpoint ancestors (rv : list string) : list (list string) :=
  match rv with
  | [] => []
  | _ :: r => rev r :: ancestors r
  end.

Definition parents (p : PosixPath) : list PosixPath :=
  map (mkPath (dslash p)) (ancestors (rev (parts p))).

(** The components of [p.relative_to(base)], when [base] is an ancestor. *)
Definition relative_to (p base : PosixPath) : list string :=
  drop (length (parts base)) (parts p).

(** [str(p)] for an absolute path. *)
Definition str (p : PosixPath) : string :=
  (if dslash p then "//" else "/") +:+ PyStr.join "/" (parts p).

(** [str] of a relative path, given by its components. *)
Definition str_rel (cs : list string) : string :=
  match cs with
  | [] => "."
  | _ => PyStr.join "/" cs
  end.

End PathLib.

(** ** Errors raised to the caller *)

(** The [HTTPException]s of the notebook routes, named by the spec's
    kinds, and the Python exceptions that are not HTTP errors. *)
Inductive exception :=
| InvalidPath                                (* 400 "Invalid notebook path" *)
| InvalidCellIndex (idx : Z) (ncells : nat)  (* 400 "Invalid cell_index: ..." *)
| CorruptDocument                            (* 500 "Failed to read notebook: ..." *)
| CellExecutionFailed                        (* 500 "Cell execution failed" *)
| NotebookExecutionFailed                    (* 500 "Notebook execution failed: ..." *)
| ExecutionFault                             (* raised inside nbclient *)
| ReaderError                                (* raised inside nbformat.read *)
| IndexError                                 (* list index out of range *)
| ValueError                                 (* "embedded null byte", raised inside resolve() *)
| OSError                                    (* FileExistsError, NotADirectoryError of mkdir *)
| WriteFailed                                (* 500 "Failed to write notebook: ..." *)
| SaveFailed.                                (* 500 "Failed to save notebook: ..." *)

(** The status the web layer answers with. *)
Definition status_code (e : exception) : Z :=
  match e with
  | InvalidPath | InvalidCellIndex _ _ => 400
  | _ => 500
  end.

Inductive result (A : Type) :=
| Ok (a : A)
| Raise (e : exception).
Arguments Ok {A} a.
Arguments Raise {A} e.

(** ** [_safe_nb_path] *)

Section Sandbox.

(** [NOTEBOOK_DIR], already resolved when the module is loaded. *)
Variable NOTEBOOK_DIR : PosixPath.

(** The string handed to pathlib: stripped, leading slashes removed,
    backslashes turned into slashes, extension appended when absent. *)
Definition normalize_rel (rel_path : string) : string :=
  let r := PyStr.replace PyStr.backslash "/" (PyStr.lstrip_char "/" (PyStr.strip rel_path)) in
  if PyStr.endswith r ".ipynb" then r else r +:+ ".ipynb".

Definition resolved_target (rel_path : string) : PosixPath :=
  PathLib.resolve (PathLib.joinpath NOTEBOOK_DIR (normalize_rel rel_path)).

(** [resolve()] asks the operating system about the components of the
    path one after the other, and Python refuses a string that holds a
    NUL character there with a [ValueError]; the route does not catch
    it, so it is raised before the containment test is reached. *)
Definition _safe_nb_path (rel_path : string) : result PosixPath :=
  if PyStr.contains PyStr.NUL (normalize_rel rel_path) then Raise ValueError
  else
    let p := resolved_target rel_path in
    if bool_decide (NOTEBOOK_DIR ∉ PathLib.parents p) && bool_decide (p ≠ NOTEBOOK_DIR)
    then Raise InvalidPath
    else Ok p.

End Sandbox.

(** ** Data model: outputs, cells, documents *)

(** A notebook multiline string: one [str] or a list of [str]. *)
Inductive multiline :=
| Text (s : string)
| TextLines (l : list string).

(** One output dictionary of a cell, by its [output_type]: [stream],
    [error], and every other dictionary (display_data, execute_result)
    with its [data] mime bundle (empty when the key is absent). *)
Inductive output :=
| Stream (name : string) (text : multiline)
| Error (ename evalue : string) (traceback : list string)
| Display (data : gmap string multiline).

Inductive cell_type := code | markdown | raw.

(** A cell dictionary.  The keys [outputs] and [execution_count] may be
    absent (markdown and raw cells have none): [None] is an absent key,
    [Some None] for [execution_count] is a key holding [None]. *)
Record cell := mkCell {
  ctype : cell_type;
  source : string;
  outputs : option (list output);
  execution_count : option (option Z)
}.

(** [cell.get("outputs", [])] and [cell.get("execution_count")]. *)
Definition get_outputs (c : cell) : list output := default [] (outputs c).
Definition get_execution_count (c : cell) : option Z := default None (execution_count c).

(** The persisted document: what one [.ipynb] file holds. *)
Record document := mkDocument { metadata : string; cells : list cell }.

(** A file below the notebook directory: a parseable notebook or bytes
    nbformat cannot read. *)
Inductive file :=
| NotebookFile (d : document)
| Garbage.

Global Instance multiline_eq_dec : EqDecision multiline.
Proof. solve_decision. Defined.
Global Instance output_eq_dec : EqDecision output.
Proof. solve_decision. Defined.
Global Instance cell_type_eq_dec : EqDecision cell_type.
Proof. solve_decision. Defined.
Global Instance cell_eq_dec : EqDecision cell.
Proof. solve_decision. Defined.
Global Instance document_eq_dec : EqDecision document.
Proof. solve_decision. Defined.

(** ** Objects in memory *)

(** Address of a cell object. *)
Abbreviation loc := nat (only parsing).

(** A [NotebookNode] in memory: its [cells] list holds references. *)
Record notebook := mkNotebook { nb_metadata : string; nb_cells : list loc }.

(** The process state of one request: the files and the cell objects. *)
Record world := mkWorld { disk : gmap PosixPath file; heap : list cell }.

Definition set_heap (w : world) (h : list cell) : world := mkWorld (disk w) h.
Definition set_disk (w : world) (d : gmap PosixPath file) : world := mkWorld d (heap w).

(** Computations that read and write the world and may raise. *)
Definition M (A : Type) : Type := world -> result A * world.

Global Instance M_ret : MRet M := fun A a w => (Ok a, w).
Global Instance M_bind : MBind M := fun A B f m w =>
  match m w with
  | (Ok a, w') => f a w'
  | (Raise e, w') => (Raise e, w')
  end.

Definition raise {A} (e : exception) : M A := fun w => (Raise e, w).

(** [try: m  except Exception as e: h e] *)
Definition try_except {A} (m : M A) (h : exception -> M A) : M A := fun w =>
  match m w with
  | (Ok a, w') => (Ok a, w')
  | (Raise e, w') => h e w'
  end.

(** Lift a result computed without touching the world. *)
Definition lift {A} (r : result A) : M A := fun w => (r, w).

(** Read the object at an address. *)
Definition deref (l : loc) : M cell := fun w =>
  match heap w !! l with
  | Some c => (Ok c, w)
  | None => (Raise IndexError, w)
  end.

(** [cells[i]] on a list of references. *)
Definition item (refs : list loc) (i : nat) : M loc := fun w =>
  match refs !! i with
  | Some l => (Ok l, w)
  | None => (Raise IndexError, w)
  end.

(** Allocate fresh cell objects, in order. *)
Definition alloc (cs : list cell) : M (list loc) := fun w =>
  (Ok (seq (length (heap w)) (length cs)), set_heap w (heap w ++ cs)).

(** [c.outputs = v] and [c.execution_count = v] on the object at [l]. *)
Definition with_outputs (c : cell) (v : list output) : cell :=
  mkCell (ctype c) (source c) (Some v) (execution_count c).
Definition with_execution_count (c : cell) (v : option Z) : cell :=
  mkCell (ctype c) (source c) (outputs c) (Some v).

Definition setattr_outputs (l : loc) (v : list output) : M unit := fun w =>
  (Ok (), set_heap w (alter (fun c => with_outputs c v) l (heap w))).
Definition setattr_execution_count (l : loc) (v : option Z) : M unit := fun w =>
  (Ok (), set_heap w (alter (fun c => with_execution_count c v) l (heap w))).

(** The document a notebook object serialises to. *)
Definition serialise (nb : notebook) (h : list cell) : document :=
  mkDocument (nb_metadata nb) (omap (fun l => h !! l) (nb_cells nb)).

Definition snapshot (nb : notebook) : M document := fun w =>
  (Ok (serialise nb (heap w)), w).

(** [nbformat.write(nb, path)] *)
Definition nbformat_write (nb : notebook) (path : PosixPath) : M unit := fun w =>
  (Ok (), set_disk w (<[path := NotebookFile (serialise nb (heap w))]> (disk w))).

(** [nbformat.read(path, as_version=4)]: fresh objects for the parsed
    cells; unreadable content raises. *)
Definition nbformat_read (path : PosixPath) : M notebook := fun w =>
  match disk w !! path with
  | Some (NotebookFile d) =>
      (refs ← alloc (cells d); mret (mkNotebook (metadata d) refs)) w
  | _ => (Raise ReaderError, w)
  end.

Definition path_exists (path : PosixPath) : M bool := fun w =>
  (Ok (bool_decide (is_Some (disk w !! path))), w).

(** The path holds no file and one of its proper ancestors holds one.
    (Directories are not entries of [disk]; where the path itself holds
    a file, its ancestors are directories.) *)
Definition below_a_file (d : gmap PosixPath file) (path : PosixPath) : bool :=
  bool_decide (d !! path = None)
  && bool_decide (Exists (fun q => is_Some (d !! q)) (PathLib.parents path)).

(** [path.parent.mkdir(parents=True, exist_ok=True)]: raises when a
    file stands where a directory is needed. *)
Definition mkdir_parent (path : PosixPath) : M unit := fun w =>
  if below_a_file (disk w) path then (Raise OSError, w) else (Ok (), w).

(** [nbformat.v4.new_markdown_cell(src)] *)
Definition new_markdown_cell (src : string) : cell := mkCell markdown src None None.

(** ** The execution session behind nbclient *)

(** What the kernel answers for one submitted source.  [Done]: the cell
    ran to its end (an error raised by the user's code is one of its
    outputs, since the client is built with [allow_errors=True]), with
    the session's counter and next state.  [Abort]: the client gave up
    on the cell (time-out, dead kernel) and raises; the outputs that
    arrived so far are on the cell, and its counter if one arrived. *)
Inductive reply (S : Type) :=
| Done (outs : list output) (count : Z) (st : S)
| Abort (outs : list output) (count : option Z).
Arguments Done {S} outs count st.
Arguments Abort {S} outs count.

(** A freshly started session: [kstart = None] when no kernel can be
    started; [kexec timeout st src] runs one source in state [st] under
    the client's [timeout] setting. *)
Record Kernel := mkKernel {
  kstate : Type;
  kstart : option kstate;
  kexec : Z -> kstate -> string -> reply kstate
}.

(** Cells the client does not submit: not code, or blank source. *)
Definition skipped (c : cell) : bool :=
  negb (bool_decide (ctype c = code)) || String.eqb (PyStr.strip (source c)) "".

Definition completed (c : cell) (outs : list output) (count : Z) : cell :=
  mkCell (ctype c) (source c) (Some outs) (Some (Some count)).

Definition aborted (c : cell) (outs : list output) (count : option Z) : cell :=
  mkCell (ctype c) (source c) (Some outs)
         (match count with Some n => Some (Some n) | None => execution_count c end).

(** The client's loop over [nb.cells], on the objects themselves: the
    heap after the loop, and the session's state when the loop ran to
    its end ([None] when the client raised on the way). *)
Fixpoint execute_cells (K : Kernel) (timeout : Z) (st : kstate K)
    (refs : list loc) (h : list cell) : list cell * option (kstate K) :=
  match refs with
  | [] => (h, Some st)
  | l :: rest =>
      match h !! l with
      | None => (h, None)
      | Some c =>
          if skipped c then execute_cells K timeout st rest h
          else
            match kexec K timeout st (source c) with
            | Done outs count st' =>
                execute_cells K timeout st' rest (<[l := completed c outs count]> h)
            | Abort outs count => (<[l := aborted c outs count]> h, None)
            end
      end
  end.

(** [NotebookClient(nb, timeout=timeout, allow_errors=True, ...).execute()]:
    returns [nb] itself, executed in place, or raises. *)
Definition NotebookClient_execute (K : Kernel) (nb : notebook) (timeout : Z) : M notebook :=
  fun w =>
    match kstart K with
    | None => (Raise ExecutionFault, w)
    | Some st =>
        match execute_cells K timeout st (nb_cells nb) (heap w) with
        | (h, Some _) => (Ok nb, set_heap w h)
        | (h, None) => (Raise ExecutionFault, set_heap w h)
        end
    end.

(** The cell objects as one call of the client leaves them, whether it
    returns or raises. *)
Definition executed_heap (K : Kernel) (timeout : Z) (refs : list loc)
    (h : list cell) : list cell :=
  match kstart K with
  | None => h
  | Some st => (execute_cells K timeout st refs h).1
  end.

(** ** [backend/notebooks.py] *)

(** The payload of [run_cell]: the executed cell's fields and the
    updated notebook. *)
Record cell_view := mkCellView {
  view_source : string;
  view_outputs : list output;
  view_execution_count : option Z
}.

Record run_cell_response := mkRunCell {
  resp_cell_index : Z;
  resp_cell : cell_view;
  resp_notebook : document
}.

(** [len(l)] *)
Definition len {A} (l : list A) : Z := Z.of_nat (length l).

Section Notebooks.

Variable NOTEBOOK_DIR : PosixPath.
Variable K : Kernel.

Definition _read_nb (path : PosixPath) : M notebook :=
  ex ← path_exists path;
  if negb ex then
    refs ← alloc [new_markdown_cell "# New notebook"];
    let nb := mkNotebook "{}" refs in
    _ ← mkdir_parent path;
    _ ← nbformat_write nb path;
    mret nb
  else
    try_except (nbformat_read path) (fun _ => raise CorruptDocument).

Definition _write_nb (path : PosixPath) (nb : notebook) : M unit :=
  try_except
    (_ ← mkdir_parent path;
     nbformat_write nb path)
    (fun _ => raise WriteFailed).

Definition _execute (nb : notebook) (timeout : Z) : M notebook :=
  try_except (NotebookClient_execute K nb timeout) (fun _ => mret nb).

Definition run_all (req_path : string) (req_timeout : Z) : M document :=
  p ← lift (_safe_nb_path NOTEBOOK_DIR req_path);
  nb ← _read_nb p;
  executed ← _execute nb req_timeout;
  _ ← _write_nb p executed;
  snapshot executed.

Definition run_cell (req_path : string) (req_cell_index req_timeout : Z)
    : M run_cell_response :=
  p ← lift (_safe_nb_path NOTEBOOK_DIR req_path);
  nb ← _read_nb p;
  let idx := req_cell_index in
  if (idx <? 0) || (idx >=? len (nb_cells nb)) then
    raise (InvalidCellIndex idx (length (nb_cells nb)))
  else
    let partial := mkNotebook (nb_metadata nb)
                              (take (Z.to_nat (idx + 1)) (nb_cells nb)) in
    executed ← _execute partial req_timeout;
    if len (nb_cells executed) >? idx then
      cell ← item (nb_cells executed) (Z.to_nat idx);
      target ← item (nb_cells nb) (Z.to_nat idx);
      c ← deref cell;
      _ ← setattr_outputs target (get_outputs c);
      c ← deref cell;
      _ ← setattr_execution_count target (get_execution_count c);
      _ ← _write_nb p nb;
      c ← deref cell;
      doc ← snapshot nb;
      mret (mkRunCell idx
              (mkCellView (source c) (get_outputs c) (get_execution_count c))
              doc)
    else
      raise CellExecutionFailed.

Definition get_notebook (req_path : string) : M document :=
  p ← lift (_safe_nb_path NOTEBOOK_DIR req_path);
  nb ← _read_nb p;
  snapshot nb.

(** [save_notebook]: the request's dictionary becomes the file. *)
Definition save_notebook (req_path : string) (req_notebook : document) : M unit :=
  p ← lift (_safe_nb_path NOTEBOOK_DIR req_path);
  try_except
    (refs ← alloc (cells req_notebook);
     _write_nb p (mkNotebook (metadata req_notebook) refs))
    (fun _ => raise SaveFailed).

End Notebooks.

(** One request against the stored files: a fresh heap, the answer and
    the files afterwards. *)
Definition serve {A} (m : M A) (fs : gmap PosixPath file)
    : result A * gmap PosixPath file :=
  let '(r, w) := m (mkWorld fs []) in (r, disk w).

(** ** [_outputs_to_text] *)

Definition joined (t : multiline) : string :=
  match t with
  | Text s => s
  | TextLines l => PyStr.join "" l
  end.

(** The lines one output appends to [lines]. *)
Definition output_lines (o : output) : list string :=
  match o with
  | Stream _ txt => [joined txt]
  | Error en ev tb => (en +:+ ": " +:+ ev) :: tb
  | Display data =>
      match data !! "text/plain" with
      | Some tp => [joined tp]
      | None => []
      end
  end.

Definition _outputs_to_text (outs : list output) : string :=
  let lines := fold_left (fun lines o => lines ++ output_lines o) outs [] in
  PyStr.strip (PyStr.join PyStr.newline lines).

(** ** [v2main.py]: the sibling implementation *)

(** The payloads of [nb_run_all] and [nb_run_cell]: the path is the one
    relative to the notebook directory, and [cell] is the executed cell
    object itself, with all its keys. *)
Record nb_run_all_response := mkNbRunAll {
  nb_all_path : string;
  nb_all_notebook : document
}.

Record nb_run_cell_response := mkNbRunCell {
  nb_cell_path : string;
  nb_cell_index : Z;
  nb_cell : cell;
  nb_cell_notebook : document
}.

Module V2Main.
Section V2Main.

Variable NOTEBOOK_DIR : PosixPath.
Variable K : Kernel.

Definition _read_nb (path : PosixPath) : M notebook :=
  ex ← path_exists path;
  if negb ex then
    refs ← alloc [new_markdown_cell "# New notebook"];
    let nb := mkNotebook "{kernelspec: python3, language_info: python}" refs in
    _ ← mkdir_parent path;
    _ ← nbformat_write nb path;
    mret nb
  else nbformat_read path.

Definition _write_nb (path : PosixPath) (nb : notebook) : M unit :=
  _ ← mkdir_parent path;
  nbformat_write nb path.

(** [str(p.relative_to(NOTEBOOK_DIR)).replace(backslash, "/")] *)
Definition relative_name (p : PosixPath) : string :=
  PyStr.replace PyStr.backslash "/"
    (PathLib.str_rel (PathLib.relative_to p NOTEBOOK_DIR)).

Definition _execute_notebook (nb : notebook) (timeout : Z) : M notebook :=
  NotebookClient_execute K nb timeout.

Definition nb_run_all (req_path : string) (req_timeout : Z) : M nb_run_all_response :=
  p ← lift (_safe_nb_path NOTEBOOK_DIR req_path);
  nb ← _read_nb p;
  try_except
    (executed ← _execute_notebook nb req_timeout;
     _ ← _write_nb p executed;
     doc ← snapshot executed;
     mret (mkNbRunAll (relative_name p) doc))
    (fun _ => raise NotebookExecutionFailed).

Definition nb_run_cell (req_path : string) (req_cell_index req_timeout : Z)
    : M nb_run_cell_response :=
  p ← lift (_safe_nb_path NOTEBOOK_DIR req_path);
  nb ← _read_nb p;
  let idx := req_cell_index in
  if (idx <? 0) || (idx >=? len (nb_cells nb)) then
    raise (InvalidCellIndex idx (length (nb_cells nb)))
  else
    let partial := mkNotebook (nb_metadata nb)
                              (take (Z.to_nat (idx + 1)) (nb_cells nb)) in
    try_except
      (executed_partial ← _execute_notebook partial req_timeout;
       executed_cell ← item (nb_cells executed_partial)
                            (length (nb_cells executed_partial) - 1)%nat;
       target ← item (nb_cells nb) (Z.to_nat idx);
       c ← deref executed_cell;
       _ ← setattr_outputs target (get_outputs c);
       c ← deref executed_cell;
       _ ← setattr_execution_count target (get_execution_count c);
       _ ← _write_nb p nb;
       c ← deref executed_cell;
       doc ← snapshot nb;
       mret (mkNbRunCell (relative_name p) idx c doc))
      (fun _ => raise CellExecutionFailed).

End V2Main.
End V2Main.

(** ** A small session provider for worked examples *)

(** A kernel whose state counts the cells run so far.  It prints the
    source back; the source [boom] raises a [NameError] (the run goes
    on), and the source [hang] never answers, so the client gives up. *)
Definition echo_exec (timeout : Z) (n : Z) (src : string) : reply Z :=
  if String.eqb src "hang" then Abort [] None
  else if String.eqb src "boom" then
    Done [Error "NameError" "name 'z' is not defined" []] (n + 1) (n + 1)
  else Done [Stream "stdout" (Text src)] (n + 1) (n + 1).

Definition echo_kernel : Kernel := mkKernel Z (Some 0) echo_exec.

(** A provider that cannot start a kernel. *)
Definition dead_kernel : Kernel := mkKernel Z None echo_exec.

(** ** Vocabulary of the properties *)

(** What the two assignments of [run_cell] leave in the target cell when
    the executed cell and the target are one object. *)
Definition merged (c : cell) : cell :=
  with_execution_count (with_outputs c (get_outputs c)) (get_execution_count c).

Definition view_of (c : cell) : cell_view :=
  mkCellView (source c) (get_outputs c) (get_execution_count c).

(** The markdown cells of [d'], the document persisted by a run on the
    stored document [d], are the stored ones: each stands at its index
    in [d] with the outputs and the execution count it has now, and is
    the stored cell itself unless it is the [target] of a single-cell
    run, which gets the two keys assigned to what it held. *)
Definition markdown_as_stored (target : option nat) (d d' : document) : Prop :=
  forall j c', cells d' !! j = Some c' -> ctype c' = markdown ->
    exists c, cells d !! j = Some c
      /\ get_outputs c' = get_outputs c
      /\ get_execution_count c' = get_execution_count c
      /\ (c' = c \/ (target = Some j /\ c' = merged c)).

(** The target of a single-cell run, when the index is in range. *)
Definition target_of (idx : Z) (d : document) : option nat :=
  if (idx <? 0) || (idx >=? len (cells d)) then None else Some (Z.to_nat idx).

(** A cell that carries no outputs and no execution count. *)
Definition bare (c : cell) : Prop :=
  get_outputs c = [] /\ get_execution_count c = None.

(** The invariant on markdown cells of a document. *)
Definition markdown_bare (d : document) : Prop :=
  forall c, c ∈ cells d -> ctype c = markdown -> bare c.

(** [p] lies strictly below [base]: same anchor, and the components of
    [base] followed by at least one more. *)
Definition strictly_inside (base p : PosixPath) : Prop :=
  dslash p = dslash base /\ exists cs, cs <> [] /\ parts p = parts base ++ cs.

(** The resolved path is neither the root nor below it. *)
Definition escapes (base p : PosixPath) : Prop :=
  p <> base /\ ~ strictly_inside base p.

(** The string begins with a character [str.strip] removes. *)
Definition leading_space (s : string) : bool :=
  match s with
  | String c _ => PyStr.isspace c
  | EmptyString => false
  end.

(** A component a resolved path can hold: not empty, not [.], not [..]. *)
Definition plain (c : string) : Prop := c <> "" /\ c <> "." /\ c <> "..".

(** A component cut out of the normalised request string: it holds no
    slash and no backslash. *)
Definition clean (c : string) : Prop :=
  PyStr.contains "/" c = false /\ PyStr.contains PyStr.backslash c = false.

(** The client raises on this call: no kernel, or the loop is cut. *)
Definition faulted (K : Kernel) (timeout : Z) (refs : list loc) (h : list cell) : Prop :=
  match kstart K with
  | None => True
  | Some st => (execute_cells K timeout st refs h).2 = None
  end.

(** The cells behind [refs] are as a run that never reached them would
    leave a fresh document: no outputs, no execution count. *)
Definition unexecuted (refs : list loc) (h : list cell) : Prop :=
  forall l c, l ∈ refs -> h !! l = Some c -> bare c.

(** The document made of the first [i + 1] cells of [d]. *)
Definition first_cells (d : document) (i : nat) : document :=
  mkDocument (metadata d) (take (S i) (cells d)).

(** Computations that cannot raise "Cell execution failed". *)
Definition no_fallback {A} (m : M A) : Prop :=
  forall w, (m w).1 <> Raise CellExecutionFailed.

(** ** Worked inputs *)

Definition demo_root : PosixPath := mkPath false ["srv"; "notebooks"].
Definition demo_path : PosixPath := mkPath false ["srv"; "notebooks"; "a.ipynb"].

(** A never-run document: two code cells around a markdown cell. *)
Definition fresh_doc : document :=
  mkDocument "{}"
    [ mkCell code "x = 1" (Some []) (Some None);
      mkCell markdown "# title" None None;
      mkCell code "print(x)" (Some []) (Some None) ].

(** A document run before, whose first cell now hangs. *)
Definition stale_doc : document :=
  mkDocument "{}"
    [ mkCell code "hang" (Some []) (Some None);
      mkCell code "print(2)" (Some [Stream "stdout" (Text "2")]) (Some (Some 2)) ].

(** A document whose second cell hangs. *)
Definition late_hang_doc : document :=
  mkDocument "{}"
    [ mkCell code "x = 1" (Some []) (Some None);
      mkCell code "hang" (Some []) (Some None) ].

Definition demo_fs (d : document) : gmap PosixPath file :=
  {[ demo_path := NotebookFile d ]}.

(** The notebook object and the world right after [_read_nb]. *)
Definition loaded (d : document) : notebook :=
  mkNotebook (metadata d) (seq 0 (length (cells d))).
Definition loaded_world (d : document) : world :=
  mkWorld (demo_fs d) (cells d).

(** The cell objects of [late_hang_doc] after the interrupted run. *)
Definition late_hang_after : list cell :=
  [ mkCell code "x = 1" (Some [Stream "stdout" (Text "x = 1")]) (Some (Some 1));
    mkCell code "hang" (Some []) (Some None) ].

(** The document [run_cell] at index 2 persists for [fresh_doc]. *)
Definition fresh_after_cell_2 : document :=
  mkDocument "{}"
    [ mkCell code "x = 1" (Some [Stream "stdout" (Text "x = 1")]) (Some (Some 1));
      mkCell markdown "# title" None None;
      mkCell code "print(x)" (Some [Stream "stdout" (Text "print(x)")]) (Some (Some 2)) ].


(** A request that climbs out of the root and holds a NUL character. *)
Definition nul_path : string := "../../etc/" +:+ String PyStr.NUL "".

(** The root's own path spelled with backslashes, two of them in front. *)
Definition double_backslash_path : string :=
  String PyStr.backslash (String PyStr.backslash "srv")
  +:+ String PyStr.backslash "notebooks"
  +:+ String PyStr.backslash "a".

(** A stored document whose markdown cell carries an output record and
    an execution count. *)
Definition annotated_cell : cell :=
  mkCell markdown "# title" (Some [Stream "stdout" (Text "old")]) (Some (Some 7)).

Definition annotated_doc : document :=
  mkDocument "{}" [ annotated_cell; mkCell code "x = 1" (Some []) (Some None) ].
(** ** Further vocabulary *)

(** The document [_read_nb] of [backend/notebooks.py] creates on a miss. *)
Definition default_document : document :=
  mkDocument "{}" [new_markdown_cell "# New notebook"].

(** A multi-line text held as one string, the form nbformat keeps in
    memory. *)
Definition is_joined (t : multiline) : bool :=
  match t with
  | Text _ => true
  | TextLines _ => false
  end.

Definition joined_output (o : output) : bool :=
  match o with
  | Stream _ txt => is_joined txt
  | Error _ _ _ => true
  | Display data => forallb (fun kv => is_joined kv.2) (map_to_list data)
  end.

(** Every output text of the document is a single string.  (A cell's
    [source] is one already.) *)
Definition joined_form (d : document) : bool :=
  forallb (fun c => forallb joined_output (get_outputs c)) (cells d).

(** The string ends with a character [str.strip] removes. *)
Fixpoint trailing_space (s : string) : bool :=
  match s with
  | String c EmptyString => PyStr.isspace c
  | String _ r => trailing_space r
  | EmptyString => false
  end.

(** The cell has both result keys, as every code cell nbformat writes. *)
Definition has_result_keys (c : cell) : Prop :=
  is_Some (outputs c) /\ is_Some (execution_count c).

(** ** More string methods *)

Module PyStr2.

(** [str.lower] on one character (code points below 256): the ASCII
    capitals and the Latin-1 capitals move up by 32. *)
Definition lower_char (c : ascii) : ascii :=
  let n := nat_of_ascii c in
  if ((65 <=? n)%nat && (n <=? 90)%nat)
     || ((192 <=? n)%nat && (n <=? 222)%nat && negb (n =? 215)%nat)
  then ascii_of_nat (n + 32) else c.

(** [s.lower()] *)
Fixpoint lower (s : string) : string :=
  match s with
  | String c r => String (lower_char c) (lower r)
  | EmptyString => EmptyString
  end.

(** [sub in s] *)
Fixpoint isin (sub s : string) : bool :=
  String.prefix sub s ||
  match s with
  | String _ r => isin sub r
  | EmptyString => false
  end.

(** No character of the string is whitespace. *)
Fixpoint no_space (s : string) : bool :=
  match s with
  | String c r => negb (PyStr.isspace c) && no_space r
  | EmptyString => true
  end.

End PyStr2.

(** ** [suggest_fix] of [backend/notebooks.py] *)

(** A text given line by line, each line ended by a newline. *)
Definition text_of_lines (ls : list string) : string :=
  PyStr.join "" (map (fun l => l +:+ PyStr.newline) ls).

Definition debug_prompt (source output_text : string) : string :=
  text_of_lines
    [ "You are debugging a Jupyter notebook cell."; "";
      "Cell source:"; "```python"; source; "```"; "";
      "Cell output / error:"; "```"; output_text; "```"; "";
      "Explain the root cause and propose a corrected version of the code.";
      "Return strictly:"; "1. Short explanation"; "2. Corrected code only" ].

Definition review_prompt (source : string) : string :=
  text_of_lines
    [ "You are reviewing a Jupyter notebook cell."; "";
      "Cell source:"; "```python"; source; "```"; "";
      "Suggest improvements to make this code better (performance, readability, best practices).";
      "Return strictly:"; "1. Short explanation"; "2. Improved code" ].

(** The prompt built from the cell's source and output text. *)
Definition suggest_prompt (source output_text : string) : string :=
  if negb (String.eqb output_text "")
     && (PyStr2.isin "error" (PyStr2.lower output_text)
         || PyStr2.isin "traceback" (PyStr2.lower output_text))
  then debug_prompt source output_text
  else review_prompt source.

(** What the route answers: the suggestion, an [HTTPException] of the
    notebook helpers, or the 500 of a failed model call. *)
Inductive suggestion :=
| Suggestion (text : string)
| SuggestRaise (e : exception)
| SuggestionFailed.

Section Suggest.

Variable NOTEBOOK_DIR : PosixPath.

(** The model service: the streamed parts of its answer to a prompt, or
    [None] when the call fails. *)
Variable chat : string -> option (list string).

(** The part of the route before the model is called: the prompt.  The
    400 of this route carries the index alone in its detail. *)
Definition suggest_fix_prompt (req_path : string) (req_cell_index : Z) : M string :=
  p ← lift (_safe_nb_path NOTEBOOK_DIR req_path);
  nb ← _read_nb p;
  let idx := req_cell_index in
  if (idx <? 0) || (idx >=? len (nb_cells nb)) then
    raise (InvalidCellIndex idx (length (nb_cells nb)))
  else
    cell ← item (nb_cells nb) (Z.to_nat idx);
    c ← deref cell;
    mret (suggest_prompt (source c) (_outputs_to_text (get_outputs c))).

Definition suggest_fix (req_path : string) (req_cell_index : Z)
    : world -> suggestion * world :=
  fun w =>
    match suggest_fix_prompt req_path req_cell_index w with
    | (Raise e, w') => (SuggestRaise e, w')
    | (Ok prompt, w') =>
        match chat prompt with
        | Some parts => (Suggestion (PyStr.strip (PyStr.join "" parts)), w')
        | None => (SuggestionFailed, w')
        end
    end.

End Suggest.

(** One [suggest_fix] request against the stored files. *)
Definition serve_suggest (m : world -> suggestion * world) (fs : gmap PosixPath file)
    : suggestion * gmap PosixPath file :=
  let '(r, w) := m (mkWorld fs []) in (r, disk w).

(** ** Notes and sources of [v2main.py] *)

Module Notes.

Record note := mkNote {
  id : string;
  title : string;
  content : string;
  created_at : string;
  updated_at : string
}.

Record chat_message := mkMessage { role : string; msg : string }.

(** The module's global lists and the three JSON files below
    [./memory] ([None]: the file does not exist). *)
Record state := mkState {
  notes_data : list note;
  chat_data : list chat_message;
  url_history_data : list string;
  NOTE_FILE : option (list note);
  CHAT_FILE : option (list chat_message);
  SOURCE_FILE : option (list string)
}.

(** An answer or an [HTTPException(status_code, detail)]. *)
Inductive answer (A : Type) :=
| Answer (a : A)
| HTTPError (status : Z) (detail : string).
Arguments Answer {A} a.
Arguments HTTPError {A} status detail.

Definition persist_all (st : state) : state :=
  mkState (notes_data st) (chat_data st) (url_history_data st)
          (Some (notes_data st)) (Some (chat_data st)) (Some (url_history_data st)).

Definition set_notes (st : state) (l : list note) : state :=
  mkState l (chat_data st) (url_history_data st)
          (NOTE_FILE st) (CHAT_FILE st) (SOURCE_FILE st).

Definition set_chat (st : state) (l : list chat_message) : state :=
  mkState (notes_data st) l (url_history_data st)
          (NOTE_FILE st) (CHAT_FILE st) (SOURCE_FILE st).

Definition set_sources (st : state) (l : list string) : state :=
  mkState (notes_data st) (chat_data st) l
          (NOTE_FILE st) (CHAT_FILE st) (SOURCE_FILE st).

Definition get_notes (st : state) : list note := notes_data st.

(** The loop of [get_note]: the first note with the id. *)
Fixpoint find_note (note_id : string) (l : list note) : option note :=
  match l with
  | [] => None
  | n :: rest => if String.eqb (id n) note_id then Some n else find_note note_id rest
  end.

Definition get_note (note_id : string) (st : state) : answer note :=
  match find_note note_id (notes_data st) with
  | Some n => Answer n
  | None => HTTPError 404 "Note not found"
  end.

(** [create_note]: [new_id] is the fresh uuid, [now] the clock. *)
Definition create_note (new_id now : string) (req_title : string) (st : state)
    : note * state :=
  let new_note := mkNote new_id req_title "" now now in
  (new_note, persist_all (set_notes st (new_note :: notes_data st))).

Definition updated (n : note) (new_title new_content : option string) (now : string)
    : note :=
  mkNote (id n) (default (title n) new_title) (default (content n) new_content)
         (created_at n) now.

(** The loop of [update_note]: the first note with the id is changed in
    place; [None] when the loop runs to its end. *)
Fixpoint update_first (note_id : string) (new_title new_content : option string)
    (now : string) (l : list note) : option (note * list note) :=
  match l with
  | [] => None
  | n :: rest =>
      if String.eqb (id n) note_id then
        Some (updated n new_title new_content now,
              updated n new_title new_content now :: rest)
      else
        match update_first note_id new_title new_content now rest with
        | Some (u, rest') => Some (u, n :: rest')
        | None => None
        end
  end.

Definition update_note (now : string) (note_id : string)
    (new_title new_content : option string) (st : state) : answer note * state :=
  match update_first note_id new_title new_content now (notes_data st) with
  | Some (u, l) => (Answer u, persist_all (set_notes st l))
  | None => (HTTPError 404 "Note not found", st)
  end.

Definition delete_note (note_id : string) (st : state) : string * state :=
  ("Note deleted",
   persist_all
     (set_notes st (List.filter (fun n => negb (String.eqb (id n) note_id))
                                (notes_data st)))).

Definition system_message : chat_message :=
  mkMessage "system" "Be concise. Ground in provided web/DB context when present.".

Definition clear_chat_history (st : state) : string * state :=
  ("Chat history cleared", persist_all (set_chat st [system_message])).

(** [list(set(l))]: the distinct elements, in an order the code does
    not control. *)
Definition list_set (l : list string) : list string :=
  elements (list_to_set l : gset string).

Definition add_sources (urls : list string) (st : state) : list string * state :=
  let st' := persist_all (set_sources st (list_set (url_history_data st ++ urls))) in
  (url_history_data st', st').

Definition clear_sources (st : state) : string * state :=
  ("Sources cleared", persist_all (set_sources st [])).

End Notes.

(** A document whose only cell failed with a [NameError]. *)
Definition name_error_cell : cell :=
  mkCell code "print(z)" (Some [Error "NameError" "name 'z' is not defined" []])
         (Some (Some 1)).
Definition name_error_doc : document := mkDocument "{}" [name_error_cell].

(** The session answers every source it is given: it never gives up. *)
Definition answers_all (K : Kernel) (timeout : Z) : Prop :=
  forall st src, exists outs count st', kexec K timeout st src = Done outs count st'.

(** The cell has been run: it has outputs and a number. *)
Definition was_run (c : cell) : Prop :=
  exists outs count, outputs c = Some outs /\ execution_count c = Some (Some count).

(** A provider that answers every source; [boom] raises a [NameError]. *)
Definition steady_exec (timeout : Z) (n : Z) (src : string) : reply Z :=
  if String.eqb src "boom" then
    Done [Error "NameError" "name 'z' is not defined" []] (n + 1) (n + 1)
  else Done [Stream "stdout" (Text src)] (n + 1) (n + 1).

Definition steady_kernel : Kernel := mkKernel Z (Some 0) steady_exec.

(** * Properties of the execution engine and of the routes *)

(** ** The client's loop *)

Section Loop.

Variable K : Kernel.
Variable t : Z.

Lemma execute_cells_app st r1 r2 h :
  execute_cells K t st (r1 ++ r2) h =
  match execute_cells K t st r1 h with
  | (h1, Some st1) => execute_cells K t st1 r2 h1
  | (h1, None) => (h1, None)
  end.
Proof.
  revert st h. induction r1 as [|l r1 IH]; intros st h; simpl; [done|].
  destruct (h !! l) as [c|]; [|done].
  destruct (skipped c); [apply IH|].
  destruct (kexec K t st (source c)); [apply IH|done].
Qed.

Lemma execute_cells_length st refs h :
  length (execute_cells K t st refs h).1 = length h.
Proof.
  revert st h. induction refs as [|l r IH]; intros st h; simpl; [done|].
  destruct (h !! l) as [c|]; [|done].
  destruct (skipped c); [apply IH|].
  destruct (kexec K t st (source c)); simpl.
  - rewrite IH. apply length_insert.
  - apply length_insert.
Qed.

(** Objects the loop does not walk over are not touched. *)
Lemma execute_cells_frame st refs h l :
  l ∉ refs -> (execute_cells K t st refs h).1 !! l = h !! l.
Proof.
  revert st h. induction refs as [|l0 r IH]; intros st h Hl; simpl; [done|].
  apply not_elem_of_cons in Hl as [Hne Hl].
  destruct (h !! l0) as [c|]; [|done].
  destruct (skipped c); [by apply IH|].
  destruct (kexec K t st (source c)); simpl.
  - rewrite IH; [|done]. by apply list_lookup_insert_ne.
  - by apply list_lookup_insert_ne.
Qed.

(** A cell the client skips is never changed, wherever it occurs. *)
Lemma execute_cells_skipped st refs h l c :
  h !! l = Some c -> skipped c = true ->
  (execute_cells K t st refs h).1 !! l = Some c.
Proof.
  revert st h. induction refs as [|l0 r IH]; intros st h Hl Hs; simpl; [done|].
  destruct (h !! l0) as [c0|] eqn:E0; [|done].
  destruct (skipped c0) eqn:Es0; [by apply IH|].
  assert (l0 <> l) as Hne by (intros ->; congruence).
  destruct (kexec K t st (source c0)); simpl.
  - apply IH; [|done]. by rewrite list_lookup_insert_ne.
  - by rewrite list_lookup_insert_ne.
Qed.

(** The loop changes neither the kind nor the source of a cell. *)
Lemma execute_cells_shape st refs h l :
  (fun c => (ctype c, source c)) <$> (execute_cells K t st refs h).1 !! l
  = (fun c => (ctype c, source c)) <$> h !! l.
Proof.
  revert st h. induction refs as [|l0 r IH]; intros st h; simpl; [done|].
  destruct (h !! l0) as [c0|] eqn:E0; [|done].
  destruct (skipped c0); [by apply IH|].
  assert (Hlt : (l0 < length h)%nat) by (apply lookup_lt_is_Some; eauto).
  destruct (kexec K t st (source c0)); simpl.
  - rewrite IH. destruct (decide (l0 = l)) as [->|Hne].
    + rewrite list_lookup_insert_eq by done. by rewrite E0.
    + by rewrite list_lookup_insert_ne.
  - destruct (decide (l0 = l)) as [->|Hne].
    + rewrite list_lookup_insert_eq by done. by rewrite E0.
    + by rewrite list_lookup_insert_ne.
Qed.

(** A markdown cell found after the loop is the cell that was there. *)
Lemma execute_cells_markdown st refs h l c :
  (execute_cells K t st refs h).1 !! l = Some c -> ctype c = markdown ->
  h !! l = Some c.
Proof.
  intros Hl Hm. pose proof (execute_cells_shape st refs h l) as Hsh.
  rewrite Hl in Hsh. simpl in Hsh.
  destruct (h !! l) as [c0|] eqn:E0; [|done].
  simpl in Hsh. injection Hsh as Hty Hsrc.
  assert (skipped c0 = true) as Hs.
  { unfold skipped. rewrite <- Hty, Hm. done. }
  pose proof (execute_cells_skipped st refs h l c0 E0 Hs) as E. congruence.
Qed.

(** Running a longer list gives, for an object of the shorter list that
    the rest does not mention, what running the shorter list gives. *)
Lemma execute_cells_prefix st r1 r2 h l :
  l ∉ r2 ->
  (execute_cells K t st (r1 ++ r2) h).1 !! l = (execute_cells K t st r1 h).1 !! l.
Proof.
  intros Hl. rewrite execute_cells_app.
  destruct (execute_cells K t st r1 h) as [h1 [st1|]]; [|done].
  by apply execute_cells_frame.
Qed.

Lemma executed_heap_length refs h : length (executed_heap K t refs h) = length h.
Proof.
  unfold executed_heap. destruct (kstart K); [apply execute_cells_length|done].
Qed.

Lemma executed_heap_frame refs h l :
  l ∉ refs -> executed_heap K t refs h !! l = h !! l.
Proof.
  unfold executed_heap. destruct (kstart K); [apply execute_cells_frame|done].
Qed.

Lemma executed_heap_markdown refs h l c :
  executed_heap K t refs h !! l = Some c -> ctype c = markdown -> h !! l = Some c.
Proof.
  unfold executed_heap. destruct (kstart K); [apply execute_cells_markdown|done].
Qed.

Lemma executed_heap_prefix r1 r2 h l :
  l ∉ r2 ->
  executed_heap K t (r1 ++ r2) h !! l = executed_heap K t r1 h !! l.
Proof.
  unfold executed_heap. destruct (kstart K); [apply execute_cells_prefix|done].
Qed.

(** [_execute] always returns the notebook object it was given, with
    the cell objects as the client left them. *)
Lemma execute_total nb w :
  _execute K nb t w = (Ok nb, set_heap w (executed_heap K t (nb_cells nb) (heap w))).
Proof.
  unfold _execute, try_except, NotebookClient_execute, executed_heap.
  destruct (kstart K) as [st|]; simpl.
  - destruct (execute_cells K t st (nb_cells nb) (heap w)) as [h [st'|]]; done.
  - by destruct w.
Qed.

End Loop.

(** ** Serialisation and the store *)

Lemma serialise_all m (h : list cell) :
  serialise (mkNotebook m (seq 0 (length h))) h = mkDocument m h.
Proof.
  unfold serialise; simpl. f_equal.
  enough (G : forall h0 h1 : list cell,
             omap (fun l => (h0 ++ h1) !! l) (seq (length h0) (length h1)) = h1)
    by apply (G [] h).
  intros h0 h1. revert h0. induction h1 as [|c h1 IH]; intros h0; simpl; [done|].
  rewrite list_lookup_middle; [|done]. f_equal.
  specialize (IH (h0 ++ [c])). rewrite length_app in IH. simpl in IH.
  rewrite <- app_assoc in IH. simpl in IH.
  by replace (S (length h0)) with (length h0 + 1)%nat by lia.
Qed.

Lemma len_bounds {A} (l : list A) (idx : Z) :
  (idx <? 0) || (idx >=? len l) = false <-> 0 <= idx < len l.
Proof. unfold len. rewrite orb_false_iff, Z.ltb_ge, Z.geb_leb, Z.leb_gt. lia. Qed.

(** The partial notebook of [run_cell] has [idx + 1] cells. *)
Lemma partial_len {A} (l : list A) (idx : Z) :
  0 <= idx < len l -> len (take (Z.to_nat (idx + 1)) l) = idx + 1.
Proof. unfold len. intros H. rewrite length_take. lia. Qed.

Lemma bind_ok {A B} (m : M A) (f : A -> M B) a w w' :
  m w = (Ok a, w') -> (m ≫= f) w = f a w'.
Proof. intros H. unfold mbind, M_bind. by rewrite H. Qed.

Lemma bind_raise {A B} (m : M A) (f : A -> M B) e w w' :
  m w = (Raise e, w') -> (m ≫= f) w = (Raise e, w').
Proof. intros H. unfold mbind, M_bind. by rewrite H. Qed.

(** ** Writing where no file stands in the way *)

Lemma not_below_stored (d : gmap PosixPath file) p :
  is_Some (d !! p) -> below_a_file d p = false.
Proof.
  intros [f Hf]. unfold below_a_file.
  rewrite bool_decide_false by congruence. done.
Qed.

Lemma not_below_free (d : gmap PosixPath file) p :
  (forall q, q ∈ PathLib.parents p -> d !! q = None) -> below_a_file d p = false.
Proof.
  intros Hfree. unfold below_a_file. apply andb_false_iff. right.
  apply bool_decide_eq_false. intros (q & Hq & [f Hf])%Exists_exists.
  rewrite (Hfree q Hq) in Hf. done.
Qed.

Lemma mkdir_parent_ok p w :
  below_a_file (disk w) p = false -> mkdir_parent p w = (Ok (), w).
Proof. intros H. unfold mkdir_parent. by rewrite H. Qed.

Lemma mkdir_parent_raise p w :
  below_a_file (disk w) p = true -> mkdir_parent p w = (Raise OSError, w).
Proof. intros H. unfold mkdir_parent. by rewrite H. Qed.

Lemma write_nb_ok p nb w :
  below_a_file (disk w) p = false ->
  _write_nb p nb w
  = (Ok (), set_disk w (<[p := NotebookFile (serialise nb (heap w))]> (disk w))).
Proof.
  intros H. unfold _write_nb, try_except.
  by rewrite (bind_ok _ _ _ _ _ (mkdir_parent_ok _ _ H)).
Qed.

Lemma write_nb_raise p nb w :
  below_a_file (disk w) p = true -> _write_nb p nb w = (Raise WriteFailed, w).
Proof.
  intros H. unfold _write_nb, try_except.
  by rewrite (bind_raise _ _ _ _ _ (mkdir_parent_raise _ _ H)).
Qed.

Lemma v2_write_nb_ok p nb w :
  below_a_file (disk w) p = false ->
  V2Main._write_nb p nb w
  = (Ok (), set_disk w (<[p := NotebookFile (serialise nb (heap w))]> (disk w))).
Proof.
  intros H. unfold V2Main._write_nb.
  by rewrite (bind_ok _ _ _ _ _ (mkdir_parent_ok _ _ H)).
Qed.

Section Routes.

Variable root : PosixPath.
Variable K : Kernel.

(** Reading a stored document allocates its cells and writes nothing. *)
Lemma read_stored p d fs :
  fs !! p = Some (NotebookFile d) ->
  _read_nb p (mkWorld fs []) =
  (Ok (mkNotebook (metadata d) (seq 0 (length (cells d)))), mkWorld fs (cells d)).
Proof.
  intros Hp. unfold _read_nb, mbind, M_bind, path_exists; simpl.
  rewrite Hp. rewrite bool_decide_true by eauto. simpl.
  unfold try_except, nbformat_read; simpl. by rewrite Hp.
Qed.

Lemma v2_read_stored p d fs :
  fs !! p = Some (NotebookFile d) ->
  V2Main._read_nb p (mkWorld fs []) =
  (Ok (mkNotebook (metadata d) (seq 0 (length (cells d)))), mkWorld fs (cells d)).
Proof.
  intros Hp. unfold V2Main._read_nb, mbind, M_bind, path_exists; simpl.
  rewrite Hp. rewrite bool_decide_true by eauto. simpl.
  unfold nbformat_read; simpl. by rewrite Hp.
Qed.

(** [run_all] on a stored document. *)
Lemma run_all_stored rel t p d fs :
  _safe_nb_path root rel = Ok p ->
  fs !! p = Some (NotebookFile d) ->
  let d' := mkDocument (metadata d)
              (executed_heap K t (seq 0 (length (cells d))) (cells d)) in
  serve (run_all root K rel t) fs = (Ok d', <[p := NotebookFile d']> fs).
Proof.
  intros Hs Hp d'. unfold serve, run_all.
  rewrite (bind_ok _ _ p (mkWorld fs []) (mkWorld fs [])) by (unfold lift; by rewrite Hs).
  rewrite (bind_ok _ _ _ _ _ (read_stored _ _ _ Hp)).
  rewrite (bind_ok _ _ _ _ _ (execute_total K t _ _)).
  cbn [nb_cells heap set_heap disk].
  pose proof (executed_heap_length K t (seq 0 (length (cells d))) (cells d)) as E.
  set (h1 := executed_heap K t (seq 0 (length (cells d))) (cells d)) in *.
  rewrite (bind_ok _ _ _ _ _ (write_nb_ok p _ (mkWorld fs h1)
             (not_below_stored fs p (mk_is_Some _ _ Hp)))).
  unfold snapshot, set_disk; cbn [nb_cells nb_metadata heap disk].
  unfold d'. fold h1. rewrite <- E. by rewrite serialise_all.
Qed.

Lemma merged_spec c i (h : list cell) :
  h !! i = Some c ->
  alter (fun c' => with_execution_count c'
                     (get_execution_count (with_outputs c (get_outputs c)))) i
        (alter (fun c' => with_outputs c' (get_outputs c)) i h)
  = <[i := merged c]> h.
Proof.
  intros Hc. assert (Hi : (i < length h)%nat) by (apply lookup_lt_is_Some; eauto).
  apply list_eq. intros j. destruct (decide (i = j)) as [<-|Hne].
  - by rewrite !list_lookup_alter_eq, Hc, list_lookup_insert_eq.
  - by rewrite !list_lookup_alter_ne, list_lookup_insert_ne.
Qed.

(** [run_cell] on a stored document, at an index in range. *)
Lemma run_cell_stored rel idx t p d fs :
  _safe_nb_path root rel = Ok p ->
  fs !! p = Some (NotebookFile d) ->
  0 <= idx < len (cells d) ->
  let i := Z.to_nat idx in
  let h1 := executed_heap K t (seq 0 (S i)) (cells d) in
  exists c1, h1 !! i = Some c1 /\
    let d' := mkDocument (metadata d) (<[i := merged c1]> h1) in
    serve (run_cell root K rel idx t) fs =
    (Ok (mkRunCell idx (view_of c1) d'), <[p := NotebookFile d']> fs).
Proof.
  intros Hs Hp Hidx i h1.
  assert (Hi : (i < length (cells d))%nat) by (unfold len in Hidx; lia).
  assert (Hlen : length h1 = length (cells d)) by apply executed_heap_length.
  destruct (h1 !! i) as [c1|] eqn:Ec1;
    [|apply lookup_ge_None in Ec1; lia].
  exists c1. split; [done|]. intros d'.
  unfold serve, run_cell.
  rewrite (bind_ok _ _ p (mkWorld fs []) (mkWorld fs [])) by (unfold lift; by rewrite Hs).
  rewrite (bind_ok _ _ _ _ _ (read_stored _ _ _ Hp)).
  cbn [nb_cells nb_metadata].
  assert (Hb : (idx <? 0) || (idx >=? len (seq 0 (length (cells d)))) = false).
  { apply len_bounds. unfold len in *. rewrite length_seq. lia. }
  rewrite Hb.
  replace (Z.to_nat (idx + 1)) with (S i) by lia.
  rewrite take_seq. replace (Nat.min (S i) (length (cells d))) with (S i) by lia.
  rewrite (bind_ok _ _ _ _ _ (execute_total K t _ _)).
  cbn [nb_cells heap set_heap disk]. fold h1.
  assert (Hgt : (len (seq 0 (S i)) >? idx) = true).
  { unfold len. rewrite length_seq. apply Z.gtb_lt. lia. }
  rewrite Hgt. fold i.
  set (w1 := mkWorld fs h1).
  rewrite (bind_ok _ _ i w1 w1) by (unfold item; rewrite lookup_seq_lt; [done|lia]).
  rewrite (bind_ok _ _ i w1 w1) by (unfold item; rewrite lookup_seq_lt; [done|lia]).
  rewrite (bind_ok _ _ c1 w1 w1) by (unfold deref; simpl; by rewrite Ec1).
  rewrite (bind_ok _ _ () w1 (mkWorld fs (alter (fun c' => with_outputs c' (get_outputs c1)) i h1)))
    by done.
  set (w2 := mkWorld fs (alter (fun c' => with_outputs c' (get_outputs c1)) i h1)).
  rewrite (bind_ok _ _ (with_outputs c1 (get_outputs c1)) w2 w2)
    by (unfold deref; simpl; by rewrite list_lookup_alter_eq, Ec1).
  rewrite (bind_ok _ _ () w2 (mkWorld fs (<[i := merged c1]> h1)))
    by (unfold setattr_execution_count, set_heap; simpl; by rewrite (merged_spec _ _ _ Ec1)).
  set (w3 := mkWorld fs (<[i := merged c1]> h1)).
  set (w4 := mkWorld (<[p := NotebookFile d']> fs) (<[i := merged c1]> h1)).
  rewrite (bind_ok _ _ () w3 w4).
  2:{ rewrite (write_nb_ok p _ w3)
        by (apply not_below_stored; unfold w3; simpl; eauto).
      unfold set_disk, w3, w4; cbn [heap disk].
      assert (El : length (<[i := merged c1]> h1) = length (cells d))
        by (by rewrite length_insert).
      rewrite <- El. by rewrite serialise_all. }
  rewrite (bind_ok _ _ (merged c1) w4 w4)
    by (unfold deref; simpl; rewrite list_lookup_insert_eq; [done|lia]).
  unfold mret, M_ret, snapshot, w4; simpl.
  assert (El : length (<[i := merged c1]> h1) = length (cells d))
    by (by rewrite length_insert).
  rewrite <- El. by rewrite serialise_all.
Qed.

End Routes.

(** ** Index validation *)

(** Both routes reject an index out of range before touching anything. *)
Lemma run_cell_rejects_bad_index_aux root K rel idx t p d fs :
  _safe_nb_path root rel = Ok p ->
  fs !! p = Some (NotebookFile d) ->
  idx < 0 \/ len (cells d) <= idx ->
  serve (run_cell root K rel idx t) fs
    = (Raise (InvalidCellIndex idx (length (cells d))), fs)
  /\ serve (V2Main.nb_run_cell root K rel idx t) fs
    = (Raise (InvalidCellIndex idx (length (cells d))), fs)
  /\ status_code (InvalidCellIndex idx (length (cells d))) = 400.
Proof.
  intros Hs Hp Hidx.
  assert (Hb : (idx <? 0) || (idx >=? len (seq 0 (length (cells d)))) = true).
  { destruct (_ || _) eqn:E; [done|]. apply len_bounds in E.
    unfold len in *. rewrite length_seq in E. lia. }
  split; [|split; [|done]].
  - unfold serve, run_cell.
    rewrite (bind_ok _ _ p (mkWorld fs []) (mkWorld fs [])) by (unfold lift; by rewrite Hs).
    rewrite (bind_ok _ _ _ _ _ (read_stored _ _ _ Hp)).
    cbn [nb_cells]. rewrite Hb. unfold raise. by rewrite length_seq.
  - unfold serve, V2Main.nb_run_cell.
    rewrite (bind_ok _ _ p (mkWorld fs []) (mkWorld fs [])) by (unfold lift; by rewrite Hs).
    rewrite (bind_ok _ _ _ _ _ (v2_read_stored _ _ _ Hp)).
    cbn [nb_cells]. rewrite Hb. unfold raise. by rewrite length_seq.
Qed.

(** C7. For a stored document and an index outside [0, len(cells)),
    [run_cell] (and [nb_run_cell] of v2main) raises the 400 error
    InvalidCellIndex and the files are exactly what they were. *)
Theorem run_cell_rejects_bad_index root K rel idx t p d fs :
  _safe_nb_path root rel = Ok p ->
  fs !! p = Some (NotebookFile d) ->
  idx < 0 \/ len (cells d) <= idx ->
  serve (run_cell root K rel idx t) fs
    = (Raise (InvalidCellIndex idx (length (cells d))), fs)
  /\ serve (V2Main.nb_run_cell root K rel idx t) fs
    = (Raise (InvalidCellIndex idx (length (cells d))), fs)
  /\ status_code (InvalidCellIndex idx (length (cells d))) = 400.
Proof. apply run_cell_rejects_bad_index_aux. Qed.

Lemma run_cell_rejects_bad_index_witness :
  _safe_nb_path demo_root "a" = Ok demo_path /\
  serve (run_cell demo_root echo_kernel "a" (-1) 120) (demo_fs fresh_doc)
    = (Raise (InvalidCellIndex (-1) 3), demo_fs fresh_doc).
Proof.
  split; [vm_compute; reflexivity|].
  apply (run_cell_rejects_bad_index demo_root echo_kernel "a" (-1) 120
           demo_path fresh_doc (demo_fs fresh_doc)).
  - vm_compute; reflexivity.
  - vm_compute; reflexivity.
  - left. lia.
Defined.

(** ** The fallback branch of [run_cell] *)

Lemma safe_nb_path_raise root rel e :
  _safe_nb_path root rel = Raise e -> e = InvalidPath \/ e = ValueError.
Proof.
  unfold _safe_nb_path. destruct (PyStr.contains _ _); [intros [= <-]; by right|].
  destruct (_ && _); [intros [= <-]; by left|done].
Qed.

Lemma read_nb_raise p w e w' :
  _read_nb p w = (Raise e, w') -> e = CorruptDocument \/ e = OSError.
Proof.
  unfold _read_nb, mbind, M_bind, path_exists. simpl.
  destruct (bool_decide _); simpl.
  - unfold try_except, nbformat_read.
    destruct (disk w !! p) as [[d|]|]; simpl; unfold raise; intros [= <- _]; by left.
  - unfold alloc, mkdir_parent, nbformat_write, mret, M_ret. simpl.
    destruct (below_a_file _ _); [intros [= <- _]; by right|done].
Qed.

Lemma no_fallback_bind {A B} (m : M A) (f : A -> M B) :
  no_fallback m -> (forall a, no_fallback (f a)) -> no_fallback (m ≫= f).
Proof.
  intros Hm Hf w. unfold mbind, M_bind. specialize (Hm w).
  destruct (m w) as [[a|e] w']; [apply Hf|]. simpl in *. congruence.
Qed.

Lemma no_fallback_item refs i : no_fallback (item refs i).
Proof. intros w. unfold item. by destruct (refs !! i). Qed.

Lemma no_fallback_deref l : no_fallback (deref l).
Proof. intros w. unfold deref. by destruct (heap w !! l). Qed.

Lemma no_fallback_write p nb : no_fallback (_write_nb p nb).
Proof.
  intros w. destruct (below_a_file (disk w) p) eqn:E.
  - by rewrite (write_nb_raise _ _ _ E).
  - by rewrite (write_nb_ok _ _ _ E).
Qed.

(** C10. [run_cell] never raises "Cell execution failed": [_execute]
    hands back the very notebook it was given on both of its paths, and
    past the bounds check the partial notebook has more than
    [cell_index] cells. *)
Theorem cell_execution_failed_unreachable root K rel idx t w nb0 :
  (exists w', _execute K nb0 t w = (Ok nb0, w'))
  /\ (run_cell root K rel idx t w).1 <> Raise CellExecutionFailed.
Proof.
  split; [rewrite execute_total; eauto|].
  unfold run_cell.
  unfold mbind at 1, M_bind at 1, lift.
  destruct (_safe_nb_path root rel) as [p|e] eqn:Hs;
    [|apply safe_nb_path_raise in Hs as [-> | ->]; simpl; congruence].
  unfold mbind at 1, M_bind at 1.
  destruct (_read_nb p w) as [[nb|e] w1] eqn:Hr;
    [|apply read_nb_raise in Hr as [-> | ->]; simpl; congruence].
  destruct ((idx <? 0) || (idx >=? len (nb_cells nb))) eqn:Hb; [simpl; congruence|].
  apply len_bounds in Hb.
  rewrite (bind_ok _ _ _ _ _ (execute_total K t _ _)).
  cbn [nb_cells]. rewrite (partial_len _ _ Hb).
  replace (idx + 1 >? idx) with true by (symmetry; apply Z.gtb_lt; lia).
  apply no_fallback_bind; [apply no_fallback_item|intros cell].
  apply no_fallback_bind; [apply no_fallback_item|intros target].
  apply no_fallback_bind; [apply no_fallback_deref|intros c].
  apply no_fallback_bind; [done|intros _].
  apply no_fallback_bind; [apply no_fallback_deref|intros c'].
  apply no_fallback_bind; [done|intros _].
  apply no_fallback_bind; [apply no_fallback_write|intros _].
  apply no_fallback_bind; [apply no_fallback_deref|intros c''].
  apply no_fallback_bind; [done|intros doc]. done.
Qed.

(** ** Faults and cut runs *)

(** C3, as the code has it.  When the client raises, [_execute] raises
    nothing: it returns the notebook object it was given, in the world
    the client left behind (same files, cell objects as the interrupted
    run left them); when no kernel could be started that world is the
    one before the call, so the document is the unmodified original. *)
Theorem execute_absorbs_faults K t nb w e w1 :
  NotebookClient_execute K nb t w = (Raise e, w1) ->
  _execute K nb t w = (Ok nb, w1)
  /\ disk w1 = disk w
  /\ (kstart K = None -> w1 = w).
Proof.
  intros Hc. unfold _execute, try_except. rewrite Hc. split; [done|].
  revert Hc. unfold NotebookClient_execute.
  destruct (kstart K) as [st|].
  - destruct (execute_cells K t st (nb_cells nb) (heap w)) as [h [st'|]];
      intros [= <- <-]; done.
  - intros [= <- <-]; done.
Qed.

Lemma execute_absorbs_faults_witness :
  NotebookClient_execute dead_kernel (loaded fresh_doc) 120 (loaded_world fresh_doc)
    = (Raise ExecutionFault, loaded_world fresh_doc) /\
  _execute dead_kernel (loaded fresh_doc) 120 (loaded_world fresh_doc)
    = (Ok (loaded fresh_doc), loaded_world fresh_doc).
Proof.
  split; [reflexivity|].
  apply (execute_absorbs_faults dead_kernel 120 (loaded fresh_doc)
           (loaded_world fresh_doc) ExecutionFault (loaded_world fresh_doc)).
  reflexivity.
Defined.

(** C3, as stated, fails: a fault in the second cell leaves the first
    cell's new outputs in the returned document. *)
Lemma execute_fault_returns_modified_document :
  NotebookClient_execute echo_kernel (loaded late_hang_doc) 120 (loaded_world late_hang_doc)
    = (Raise ExecutionFault, set_heap (loaded_world late_hang_doc) late_hang_after)
  /\ _execute echo_kernel (loaded late_hang_doc) 120 (loaded_world late_hang_doc)
    = (Ok (loaded late_hang_doc), set_heap (loaded_world late_hang_doc) late_hang_after)
  /\ serialise (loaded late_hang_doc) late_hang_after <> late_hang_doc.
Proof.
  split; [reflexivity|]. split; [reflexivity|].
  intros H. vm_compute in H. discriminate H.
Qed.

(** C2, as the code has it.  When the session cuts the run at the cell
    [l] (it follows the cells [pre], which ran to their end, and comes
    before the cells [post]), [_execute] returns normally; the cells of
    [pre] are as their run left them, and the cells of [post] are
    exactly as they were before the call. *)
Theorem execute_cut_keeps_both_sides K t nb w st0 pre l post h1 st1 c outs cnt :
  nb_cells nb = pre ++ l :: post ->
  NoDup (nb_cells nb) ->
  kstart K = Some st0 ->
  execute_cells K t st0 pre (heap w) = (h1, Some st1) ->
  h1 !! l = Some c ->
  skipped c = false ->
  kexec K t st1 (source c) = Abort outs cnt ->
  exists h2,
    _execute K nb t w = (Ok nb, set_heap w h2)
    /\ (forall l', l' ∈ pre -> h2 !! l' = h1 !! l')
    /\ h2 !! l = Some (aborted c outs cnt)
    /\ (forall l', l' ∈ post -> h2 !! l' = heap w !! l').
Proof.
  intros Hcells Hnd Hk Hpre Hl Hsk Hab.
  rewrite Hcells in Hnd. apply NoDup_app in Hnd as (_ & Hdisj & Hnd2).
  apply NoDup_cons in Hnd2 as [Hlpost _].
  assert (Hlt : (l < length h1)%nat) by (apply lookup_lt_is_Some; eauto).
  exists (<[l := aborted c outs cnt]> h1).
  split; [|split; [|split]].
  - rewrite execute_total. unfold executed_heap. rewrite Hk, Hcells.
    rewrite execute_cells_app, Hpre. simpl. by rewrite Hl, Hsk, Hab.
  - intros l' Hl'. apply list_lookup_insert_ne. intros ->.
    apply (Hdisj l' Hl'). by left.
  - by apply list_lookup_insert_eq.
  - intros l' Hl'. rewrite list_lookup_insert_ne by (intros ->; done).
    replace h1 with (execute_cells K t st0 pre (heap w)).1 by (by rewrite Hpre).
    apply execute_cells_frame. intros Hin. apply (Hdisj l' Hin). by right.
Qed.

Lemma execute_cut_keeps_both_sides_witness :
  exists h2,
    _execute echo_kernel (loaded stale_doc) 120 (loaded_world stale_doc)
      = (Ok (loaded stale_doc), set_heap (loaded_world stale_doc) h2)
    /\ (forall l', l' ∈ [] -> h2 !! l' = cells stale_doc !! l')
    /\ h2 !! 0%nat = Some (aborted (mkCell code "hang" (Some []) (Some None)) [] None)
    /\ (forall l', l' ∈ [1%nat] -> h2 !! l' = cells stale_doc !! l').
Proof.
  apply (execute_cut_keeps_both_sides echo_kernel 120 (loaded stale_doc)
           (loaded_world stale_doc) 0 [] 0%nat [1%nat] (cells stale_doc) 0
           (mkCell code "hang" (Some []) (Some None)) [] None).
  - reflexivity.
  - apply (NoDup_seq 0 2).
  - reflexivity.
  - reflexivity.
  - reflexivity.
  - reflexivity.
  - reflexivity.
Defined.

(** C2, as stated, fails: the run is cut at the first cell, the call
    returns normally, and the second cell still carries the outputs and
    the execution count of an earlier run. *)
Lemma execute_cut_leaves_stale_outputs :
  kexec echo_kernel 120 0 "hang" = Abort [] None
  /\ _execute echo_kernel (loaded stale_doc) 120 (loaded_world stale_doc)
     = (Ok (loaded stale_doc), set_heap (loaded_world stale_doc) (cells stale_doc))
  /\ ~ unexecuted [1%nat] (cells stale_doc).
Proof.
  split; [reflexivity|]. split; [reflexivity|].
  intros H.
  destruct (H 1%nat (mkCell code "print(2)" (Some [Stream "stdout" (Text "2")])
                       (Some (Some 2)))) as [H1 _].
  - by left.
  - reflexivity.
  - discriminate H1.
Qed.

(** ** What [run_cell] persists *)

(** Cells after the target are persisted as they were stored. *)
Lemma run_cell_keeps_later_cells root K rel idx t p d fs j :
  _safe_nb_path root rel = Ok p ->
  fs !! p = Some (NotebookFile d) ->
  0 <= idx < len (cells d) ->
  (Z.to_nat idx < j)%nat ->
  exists resp d',
    serve (run_cell root K rel idx t) fs = (Ok resp, <[p := NotebookFile d']> fs)
    /\ cells d' !! j = cells d !! j.
Proof.
  intros Hs Hp Hidx Hj.
  destruct (run_cell_stored root K rel idx t p d fs Hs Hp Hidx) as (c1 & Hc1 & Hrun).
  eexists _, _. split; [exact Hrun|]. cbn [cells].
  rewrite list_lookup_insert_ne by lia.
  apply executed_heap_frame. intros Hin%elem_of_seq. lia.
Qed.

(** C1 fails on the code.  The partial notebook shares its cell objects
    with the notebook read from the file, so replaying cells [0..i-1]
    rewrites them in the persisted document too: on a never-run document
    [run_cell] at index 2 persists new outputs and an execution count
    for cell 0. *)
Theorem run_cell_rewrites_earlier_cells :
  (serve (run_cell demo_root echo_kernel "a" 2 120) (demo_fs fresh_doc)).1
    = Ok (mkRunCell 2
            (mkCellView "print(x)" [Stream "stdout" (Text "print(x)")] (Some 2))
            fresh_after_cell_2)
  /\ (serve (run_cell demo_root echo_kernel "a" 2 120) (demo_fs fresh_doc)).2 !! demo_path
     = Some (NotebookFile fresh_after_cell_2)
  /\ cells fresh_doc !! 0%nat = Some (mkCell code "x = 1" (Some []) (Some None))
  /\ cells fresh_after_cell_2 !! 0%nat
     = Some (mkCell code "x = 1" (Some [Stream "stdout" (Text "x = 1")]) (Some (Some 1))).
Proof.
  split; [vm_compute; reflexivity|]. split; [vm_compute; reflexivity|].
  split; reflexivity.
Qed.

(** The same happens in [nb_run_cell] of v2main. *)
Lemma nb_run_cell_rewrites_earlier_cells :
  (serve (V2Main.nb_run_cell demo_root echo_kernel "a" 2 120) (demo_fs fresh_doc)).2
    !! demo_path
  = Some (NotebookFile fresh_after_cell_2).
Proof. vm_compute. reflexivity. Qed.

(** ** Markdown cells *)

Lemma merged_bare c : bare c -> bare (merged c).
Proof. intros [Ho Hc]. unfold bare, merged. simpl. by rewrite Ho, Hc. Qed.

Lemma executed_heap_markdown_bare K t refs d :
  markdown_bare d ->
  markdown_bare (mkDocument (metadata d) (executed_heap K t refs (cells d))).
Proof.
  intros Hd c Hc Hm. simpl in Hc.
  apply list_elem_of_lookup in Hc as [j Hj].
  apply executed_heap_markdown in Hj; [|done].
  apply Hd; [|done]. apply list_elem_of_lookup. eauto.
Qed.

(** ** Replay *)

Section Replay.

Variable K : Kernel.
Variable t : Z.

(** Objects beyond the ones the loop walks over do not matter. *)
Lemma execute_cells_heap_app st refs (h h' : list cell) :
  Forall (fun l => (l < length h)%nat) refs ->
  execute_cells K t st refs (h ++ h') =
  ((execute_cells K t st refs h).1 ++ h', (execute_cells K t st refs h).2).
Proof.
  revert st h. induction refs as [|l r IH]; intros st h Hall; simpl; [done|].
  apply Forall_cons in Hall as [Hl Hall].
  rewrite lookup_app_l by done.
  destruct (h !! l) as [c|] eqn:E; [|apply lookup_ge_None in E; lia].
  destruct (skipped c); [by apply IH|].
  destruct (kexec K t st (source c)); simpl.
  - rewrite insert_app_l by done. apply IH. by rewrite length_insert.
  - by rewrite insert_app_l by done.
Qed.

Lemma executed_heap_take (h : list cell) i :
  (i < length h)%nat ->
  executed_heap K t (seq 0 (S i)) (take (S i) h) !! i
  = executed_heap K t (seq 0 (S i)) h !! i.
Proof.
  intros Hi. unfold executed_heap.
  destruct (kstart K) as [st|]; [|apply lookup_take_lt; lia].
  rewrite <- (take_drop (S i) h) at 2.
  rewrite execute_cells_heap_app.
  - cbn [fst]. symmetry. apply lookup_app_l.
    rewrite execute_cells_length, length_take. lia.
  - apply Forall_forall. intros l Hl%elem_of_seq. rewrite length_take. lia.
Qed.

Lemma executed_heap_all (h : list cell) i :
  (i < length h)%nat ->
  executed_heap K t (seq 0 (length h)) h !! i
  = executed_heap K t (seq 0 (S i)) h !! i.
Proof.
  intros Hi.
  replace (length h) with (S i + (length h - S i))%nat at 1 by lia.
  rewrite seq_app. apply executed_heap_prefix.
  intros Hin%elem_of_seq. lia.
Qed.

End Replay.

Lemma view_of_merged c : view_of (merged c) = view_of c.
Proof. done. Qed.

(** C4. For a stored document and an index in range, the outputs and the
    execution count [run_cell] returns and persists for cell [i] are
    those [run_all] gives cell [i], both on the whole document and on
    the document made of its first [i + 1] cells. *)
Theorem run_cell_replays_prefix root K rel idx t p d fs :
  _safe_nb_path root rel = Ok p ->
  fs !! p = Some (NotebookFile d) ->
  0 <= idx < len (cells d) ->
  let i := Z.to_nat idx in
  exists resp fs1 dall fs2 dpre fs3 ccell call cpre,
    serve (run_cell root K rel idx t) fs = (Ok resp, fs1)
    /\ serve (run_all root K rel t) fs = (Ok dall, fs2)
    /\ serve (run_all root K rel t) (<[p := NotebookFile (first_cells d i)]> fs)
       = (Ok dpre, fs3)
    /\ cells (resp_notebook resp) !! i = Some ccell
    /\ fs1 !! p = Some (NotebookFile (resp_notebook resp))
    /\ cells dall !! i = Some call
    /\ cells dpre !! i = Some cpre
    /\ resp_cell resp = view_of ccell
    /\ view_of ccell = view_of call
    /\ view_of ccell = view_of cpre.
Proof.
  intros Hs Hp Hidx i.
  assert (Hi : (i < length (cells d))%nat) by (unfold len in Hidx; lia).
  destruct (run_cell_stored root K rel idx t p d fs Hs Hp Hidx) as (c1 & Hc1 & Hrun).
  fold i in Hc1, Hrun.
  pose proof (run_all_stored root K rel t p d fs Hs Hp) as Hall.
  pose proof (run_all_stored root K rel t p (first_cells d i)
                (<[p := NotebookFile (first_cells d i)]> fs) Hs
                (lookup_insert_eq _ _ _)) as Hpre.
  cbn zeta in Hrun, Hall, Hpre.
  assert (Hlt : (i < length (executed_heap K t (seq 0 (S i)) (cells d)))%nat)
    by (by rewrite executed_heap_length).
  eexists _, _, _, _, _, _, (merged c1), c1, c1.
  split; [exact Hrun|]. split; [exact Hall|]. split; [exact Hpre|].
  cbn [resp_notebook resp_cell cells first_cells metadata].
  split; [by apply list_lookup_insert_eq|].
  split; [by rewrite lookup_insert_eq|].
  split; [by rewrite executed_heap_all|].
  split.
  { rewrite length_take. replace (Nat.min (S i) (length (cells d))) with (S i) by lia.
    by rewrite executed_heap_take. }
  done.
Qed.

Lemma run_cell_replays_prefix_witness :
  exists resp fs1 dall fs2 dpre fs3 ccell call cpre,
    serve (run_cell demo_root echo_kernel "a" 2 120) (demo_fs fresh_doc) = (Ok resp, fs1)
    /\ serve (run_all demo_root echo_kernel "a" 120) (demo_fs fresh_doc) = (Ok dall, fs2)
    /\ serve (run_all demo_root echo_kernel "a" 120)
         (<[demo_path := NotebookFile (first_cells fresh_doc 2)]> (demo_fs fresh_doc))
       = (Ok dpre, fs3)
    /\ cells (resp_notebook resp) !! 2%nat = Some ccell
    /\ fs1 !! demo_path = Some (NotebookFile (resp_notebook resp))
    /\ cells dall !! 2%nat = Some call
    /\ cells dpre !! 2%nat = Some cpre
    /\ resp_cell resp = view_of ccell
    /\ view_of ccell = view_of call
    /\ view_of ccell = view_of cpre.
Proof.
  apply (run_cell_replays_prefix demo_root echo_kernel "a" 2 120 demo_path fresh_doc
           (demo_fs fresh_doc)).
  - vm_compute; reflexivity.
  - vm_compute; reflexivity.
  - by vm_compute.
Defined.

(** ** [_outputs_to_text] *)

Lemma outputs_lines_fold (outs : list output) (acc : list string) :
  fold_left (fun lines o => lines ++ output_lines o) outs acc
  = acc ++ flat_map output_lines outs.
Proof.
  revert acc. induction outs as [|o outs IH]; intros acc; simpl.
  - by rewrite app_nil_r.
  - by rewrite IH, app_assoc.
Qed.

(** C8 fails on the spec's first example: each stream record is one
    line, and the lines are joined with a newline, so the two texts
    ending in a newline come out with an empty line between them. *)
Lemma outputs_to_text_streams_not_concatenated :
  _outputs_to_text [Stream "stdout" (Text ("a" +:+ PyStr.newline));
                    Stream "stdout" (Text ("b" +:+ PyStr.newline))]
  <> "a" +:+ PyStr.newline +:+ "b".
Proof. by vm_compute. Qed.

(** C8, as the code has it.  The text is the stripped newline-join of
    the lines of the records in order: a stream gives its text (a list
    of fragments concatenated), an error gives [ename: evalue] and then
    its traceback lines, any other record gives its [text/plain]
    representation when it has one and nothing otherwise.  The two
    stream texts of the example come out as [a], an empty line, [b]. *)
Theorem outputs_to_text_lines (outs : list output) :
  _outputs_to_text outs
    = PyStr.strip (PyStr.join PyStr.newline (flat_map output_lines outs))
  /\ (forall name s, output_lines (Stream name (Text s)) = [s])
  /\ (forall name l, output_lines (Stream name (TextLines l)) = [PyStr.join "" l])
  /\ (forall en ev tb, output_lines (Error en ev tb) = (en +:+ ": " +:+ ev) :: tb)
  /\ (forall data, output_lines (Display data)
                    = match data !! "text/plain" with
                      | Some tp => [joined tp]
                      | None => []
                      end)
  /\ _outputs_to_text [Stream "stdout" (Text ("a" +:+ PyStr.newline));
                       Stream "stdout" (Text ("b" +:+ PyStr.newline))]
     = "a" +:+ PyStr.newline +:+ PyStr.newline +:+ "b"
  /\ _outputs_to_text [Error "KeyError" "'x'" ["line1"; "line2"]]
     = "KeyError: 'x'" +:+ PyStr.newline +:+ "line1" +:+ PyStr.newline +:+ "line2".
Proof.
  split.
  { unfold _outputs_to_text. by rewrite outputs_lines_fold. }
  repeat split; done.
Qed.

(** * Properties of the path sandbox *)

(** ** [parents] *)

Lemma ancestors_spec (rv x : list string) :
  x ∈ PathLib.ancestors rv <-> exists s, s <> [] /\ rev rv = x ++ s.
Proof.
  induction rv as [|a r IH]; simpl.
  - split; [by intros ?%elem_of_nil|].
    intros (s & Hs & E). symmetry in E. apply app_eq_nil in E as [_ ->]. done.
  - rewrite elem_of_cons, IH. split.
    + intros [->|(s & Hs & E)].
      * exists [a]. done.
      * exists (s ++ [a]). split; [by destruct s|]. by rewrite E, app_assoc.
    + intros (s & Hs & E).
      destruct (exists_last Hs) as (s' & a' & ->).
      rewrite app_assoc in E. apply app_inj_tail in E as [E ->].
      destruct s' as [|b s'].
      * left. by rewrite app_nil_r in E.
      * right. exists (b :: s'). done.
Qed.

Lemma parents_spec (base p : PosixPath) :
  base ∈ PathLib.parents p <-> strictly_inside base p.
Proof.
  unfold PathLib.parents, strictly_inside. rewrite list_elem_of_fmap. split.
  - intros (x & -> & Hx). apply ancestors_spec in Hx as (s & Hs & E).
    rewrite rev_involutive in E. simpl. eauto.
  - intros (Hd & s & Hs & E). exists (parts base). split.
    + destruct base; simpl in *. by rewrite Hd.
    + apply ancestors_spec. rewrite rev_involutive. eauto.
Qed.

Section SandboxFacts.

Variable root : PosixPath.

Lemma safe_nb_path_check rel :
  bool_decide (root ∉ PathLib.parents (resolved_target root rel))
    && bool_decide (resolved_target root rel ≠ root) = true
  <-> escapes root (resolved_target root rel).
Proof.
  unfold escapes. rewrite andb_true_iff, !bool_decide_eq_true, parents_spec. tauto.
Qed.

Lemma safe_nb_path_raise_iff rel :
  _safe_nb_path root rel = Raise InvalidPath
  <-> PyStr.contains PyStr.NUL (normalize_rel rel) = false
      /\ escapes root (resolved_target root rel).
Proof.
  rewrite <- safe_nb_path_check. unfold _safe_nb_path.
  destruct (PyStr.contains _ _); [split; [done|by intros [? _]]|].
  destruct (_ && _); split; try done; by intros [_ ?].
Qed.

Lemma safe_nb_path_value_error rel :
  _safe_nb_path root rel = Raise ValueError
  <-> PyStr.contains PyStr.NUL (normalize_rel rel) = true.
Proof.
  unfold _safe_nb_path. destruct (PyStr.contains _ _); [done|].
  by destruct (_ && _).
Qed.

Lemma safe_nb_path_ok rel p :
  _safe_nb_path root rel = Ok p <->
  PyStr.contains PyStr.NUL (normalize_rel rel) = false
  /\ p = resolved_target root rel /\ (p = root \/ strictly_inside root p).
Proof.
  pose proof (safe_nb_path_check rel) as Hc. unfold _safe_nb_path.
  destruct (PyStr.contains _ _); [split; [done|by intros [? _]]|].
  destruct (_ && _) eqn:E.
  - split; [done|]. intros (_ & -> & H).
    destruct Hc as [Hc _]. destruct (Hc eq_refl) as [H1 H2]. tauto.
  - assert (Hn : ~ escapes root (resolved_target root rel))
      by (intros H%Hc; congruence).
    split.
    + intros [= <-]. split; [done|]. split; [done|]. unfold escapes in Hn.
      destruct (decide (resolved_target root rel = root)) as [?|Hne]; [by left|].
      right. apply parents_spec.
      destruct (decide (root ∈ PathLib.parents (resolved_target root rel)))
        as [?|Hni]; [done|].
      exfalso. apply Hn. split; [done|]. by rewrite <- parents_spec.
    + by intros (_ & -> & _).
Qed.

(** A request whose path is refused ends in [_safe_nb_path]: nothing
    is read, created or written. *)
Lemma routes_fail_fast K rel e :
  _safe_nb_path root rel = Raise e ->
  forall fs t idx doc,
    serve (get_notebook root rel) fs = (Raise e, fs)
    /\ serve (save_notebook root rel doc) fs = (Raise e, fs)
    /\ serve (run_all root K rel t) fs = (Raise e, fs)
    /\ serve (run_cell root K rel idx t) fs = (Raise e, fs).
Proof.
  intros Hs fs t idx doc.
  unfold serve, get_notebook, save_notebook, run_all, run_cell.
  rewrite !(bind_raise _ _ e (mkWorld fs []) (mkWorld fs []))
    by (unfold lift; by rewrite Hs).
  done.
Qed.

End SandboxFacts.

(** ** Facts about the string methods *)

Lemma append_cons c a b : String c a +:+ b = String c (a +:+ b).
Proof. reflexivity. Qed.

Lemma append_nil_l b : "" +:+ b = b.
Proof. reflexivity. Qed.

Ltac ssimpl :=
  simpl; repeat (progress (rewrite ?append_cons, ?append_nil_l; simpl)).

Section StrFacts.

Lemma append_nil_r s : s +:+ "" = s.
Proof. induction s as [|c s IH]; [done|]. by rewrite append_cons, IH. Qed.

Lemma append_assoc a b c : (a +:+ b) +:+ c = a +:+ (b +:+ c).
Proof. induction a as [|x a IH]; [done|]. by rewrite !append_cons, IH. Qed.

Lemma append_eq_nil a b : a +:+ b = "" -> a = "" /\ b = "".
Proof. destruct a; [done|]. rewrite append_cons. discriminate. Qed.

Lemma endswith_app a suf : PyStr.endswith (a +:+ suf) suf = true.
Proof.
  induction a as [|x a IH].
  - rewrite append_nil_l. destruct suf; [done|].
    cbn [PyStr.endswith]. by rewrite String.eqb_refl.
  - rewrite append_cons. cbn [PyStr.endswith]. rewrite IH. apply orb_true_r.
Qed.

Lemma endswith_app_r a b suf :
  PyStr.endswith b suf = true -> PyStr.endswith (a +:+ b) suf = true.
Proof.
  intros H. induction a as [|x a IH]; [done|].
  rewrite append_cons. cbn [PyStr.endswith]. rewrite IH. apply orb_true_r.
Qed.

Lemma endswith_inv s suf :
  PyStr.endswith s suf = true -> exists a, s = a +:+ suf.
Proof.
  induction s as [|x s IH].
  - destruct suf; [by exists ""|discriminate].
  - cbn [PyStr.endswith]. intros [H%String.eqb_eq|H]%orb_true_iff.
    + exists "". by subst.
    + destruct (IH H) as [a ->]. by exists (String x a).
Qed.

Lemma rstrip_app a b :
  PyStr.rstrip b = b -> b <> "" -> PyStr.rstrip (a +:+ b) = a +:+ b.
Proof.
  intros Hb Hne. induction a as [|x a IH]; ssimpl; [done|].
  rewrite IH. destruct (a +:+ b) eqn:E; [|done].
  apply append_eq_nil in E as [_ ->]. done.
Qed.

Lemma lstrip_fixed s : leading_space s = false -> PyStr.lstrip s = s.
Proof. destruct s as [|c s]; ssimpl; [done|]. by intros ->. Qed.

Lemma strip_fixed s :
  leading_space s = false -> PyStr.endswith s ".ipynb" = true -> PyStr.strip s = s.
Proof.
  intros Hl He. unfold PyStr.strip. rewrite (lstrip_fixed _ Hl).
  destruct (endswith_inv _ _ He) as [a ->]. by apply rstrip_app.
Qed.

Lemma lstrip_char_fixed a s :
  PyStr.startswith s (String a "") = false -> PyStr.lstrip_char a s = s.
Proof.
  destruct s as [|c s]; ssimpl; [done|]. unfold PyStr.startswith. ssimpl.
  destruct (Ascii.eqb_spec c a) as [->|Hne]; [|done].
  destruct (ascii_dec a a); [|done]. by destruct s.
Qed.

Lemma contains_app a s1 s2 :
  PyStr.contains a (s1 +:+ s2) = PyStr.contains a s1 || PyStr.contains a s2.
Proof. induction s1 as [|c s1 IH]; ssimpl; [done|]. by rewrite IH, orb_assoc. Qed.

Lemma replace_fixed a b s : PyStr.contains a s = false -> PyStr.replace a b s = s.
Proof.
  induction s as [|c s IH]; ssimpl; [done|].
  intros [Hc Hs]%orb_false_iff. by rewrite Hc, IH.
Qed.

Lemma contains_replace a b s : b <> a -> PyStr.contains a (PyStr.replace a b s) = false.
Proof.
  intros Hne. induction s as [|c s IH]; ssimpl; [done|]. rewrite IH, orb_false_r.
  destruct (Ascii.eqb_spec c a) as [->|Hc]; by apply Ascii.eqb_neq.
Qed.

Lemma contains_join a sep l :
  PyStr.contains a sep = false ->
  Forall (fun c => PyStr.contains a c = false) l ->
  PyStr.contains a (PyStr.join sep l) = false.
Proof.
  intros Hsep. induction 1 as [|x l Hx Hl IH]; ssimpl; [done|].
  destruct l as [|y l]; [done|].
  rewrite !contains_app, Hx, Hsep. apply IH.
Qed.

(** [split] *)

Lemma split_not_nil a s : PyStr.split a s <> [].
Proof.
  destruct s as [|c s]; ssimpl; [done|].
  destruct (Ascii.eqb c a); [done|]. by destruct (PyStr.split a s).
Qed.

Lemma split_single a s : PyStr.contains a s = false -> PyStr.split a s = [s].
Proof.
  induction s as [|c s IH]; ssimpl; [done|].
  intros [Hc Hs]%orb_false_iff. by rewrite Hc, IH.
Qed.

Lemma split_app_sep a x r :
  PyStr.contains a x = false ->
  PyStr.split a (x +:+ String a r) = x :: PyStr.split a r.
Proof.
  induction x as [|c x IH]; ssimpl.
  - intros _. by rewrite Ascii.eqb_refl.
  - intros [Hc Hx]%orb_false_iff. by rewrite Hc, IH.
Qed.

Lemma split_join a l :
  l <> [] ->
  Forall (fun c => PyStr.contains a c = false) l ->
  PyStr.split a (PyStr.join (String a "") l) = l.
Proof.
  intros Hne Hall. induction Hall as [|x l Hx Hl IH]; [done|].
  destruct l as [|y l]; ssimpl.
  - by apply split_single.
  - rewrite split_app_sep by done. f_equal. by apply IH.
Qed.

(** The components of a split hold no separator, and nothing that the
    whole string does not hold. *)
Lemma split_components a b s :
  Forall (fun c => PyStr.contains a c = false
                   /\ (PyStr.contains b s = false -> PyStr.contains b c = false))
         (PyStr.split a s).
Proof.
  induction s as [|c s IH]; ssimpl.
  - by repeat constructor.
  - destruct (Ascii.eqb c a) eqn:Ec.
    + constructor; [done|].
      eapply Forall_impl; [exact IH|]. ssimpl. intros x [H1 H2]. split; [done|].
      intros [_ H]%orb_false_iff. auto.
    + destruct (PyStr.split a s) as [|h tl] eqn:Es; [by destruct (split_not_nil a s)|].
      apply Forall_cons in IH as [[Hh1 Hh2] Htl]. constructor.
      * ssimpl. rewrite Ec, Hh1. split; [done|].
        intros [-> H]%orb_false_iff. auto.
      * eapply Forall_impl; [exact Htl|]. ssimpl. intros x [H1 H2]. split; [done|].
        intros [_ H]%orb_false_iff. auto.
Qed.

(** Appending text without a separator extends the last component. *)
Lemma split_app_tail a s t :
  PyStr.contains a t = false ->
  exists init la,
    PyStr.split a s = init ++ [la] /\ PyStr.split a (s +:+ t) = init ++ [la +:+ t].
Proof.
  intros Ht. induction s as [|c s IH]; ssimpl.
  - exists [], "". split; [done|]. by apply split_single.
  - destruct IH as (init & la & E1 & E2). rewrite E1, E2.
    destruct (Ascii.eqb c a).
    + by exists ("" :: init), la.
    + destruct init as [|h tl]; ssimpl.
      * by exists [], (String c la).
      * by exists (String c h :: tl), la.
Qed.

Lemma endswith_join_last sep l c suf :
  last l = Some c -> PyStr.endswith c suf = true ->
  PyStr.endswith (PyStr.join sep l) suf = true.
Proof.
  intros Hl Hc. induction l as [|x l IH]; [done|].
  destruct l as [|y l]; simpl in *.
  - by injection Hl as ->.
  - apply endswith_app_r, endswith_app_r. by apply IH.
Qed.

Lemma leading_join sep x l :
  x <> "" -> leading_space (PyStr.join sep (x :: l)) = leading_space x
             /\ forall a, PyStr.startswith (PyStr.join sep (x :: l)) (String a "")
                          = PyStr.startswith x (String a "").
Proof.
  intros Hx. destruct x as [|c x]; [done|].
  destruct l as [|y l]; ssimpl; [done|]. split; [done|].
  intros a. unfold PyStr.startswith. ssimpl. destruct (ascii_dec a c); [|done].
  by destruct x, (sep +:+ _).
Qed.

Lemma startswith_char_contains a s :
  PyStr.contains a s = false -> PyStr.startswith s (String a "") = false.
Proof.
  destruct s as [|c s]; ssimpl; [done|]. intros [Hc _]%orb_false_iff.
  unfold PyStr.startswith. ssimpl. destruct (ascii_dec a c) as [->|]; [|done].
  by rewrite Ascii.eqb_refl in Hc.
Qed.

(** Characters the normalisation neither removes nor introduces. *)
Lemma contains_lstrip c s :
  PyStr.isspace c = false -> PyStr.contains c (PyStr.lstrip s) = PyStr.contains c s.
Proof.
  intros Hc. induction s as [|x s IH]; [done|].
  cbn [PyStr.lstrip]. destruct (PyStr.isspace x) eqn:Ex; [|done].
  rewrite IH. cbn [PyStr.contains].
  destruct (Ascii.eqb_spec x c) as [->|_]; [congruence|done].
Qed.

Lemma contains_rstrip c s :
  PyStr.isspace c = false -> PyStr.contains c (PyStr.rstrip s) = PyStr.contains c s.
Proof.
  intros Hc. induction s as [|x s IH]; [done|].
  cbn [PyStr.rstrip PyStr.contains]. rewrite <- IH.
  destruct (PyStr.rstrip s) as [|y r]; [|done].
  destruct (PyStr.isspace x) eqn:Ex; [|done].
  cbn [PyStr.contains]. destruct (Ascii.eqb_spec x c) as [->|_]; [congruence|done].
Qed.

Lemma contains_lstrip_char a c s :
  a <> c -> PyStr.contains c (PyStr.lstrip_char a s) = PyStr.contains c s.
Proof.
  intros Hne. induction s as [|x s IH]; [done|].
  cbn [PyStr.lstrip_char]. destruct (Ascii.eqb_spec x a) as [->|_]; [|done].
  rewrite IH. cbn [PyStr.contains].
  destruct (Ascii.eqb_spec a c) as [?|_]; [done|done].
Qed.

Lemma contains_replace_other a b c s :
  a <> c -> b <> c ->
  PyStr.contains c (PyStr.replace a b s) = PyStr.contains c s.
Proof.
  intros Ha Hb. induction s as [|x s IH]; [done|].
  cbn [PyStr.replace PyStr.contains]. rewrite IH. f_equal.
  destruct (Ascii.eqb_spec x a) as [->|_]; [|done].
  destruct (Ascii.eqb_spec b c), (Ascii.eqb_spec a c); done.
Qed.

End StrFacts.

(** ** Resolution *)

Section ResolveFacts.

Lemma keeps_plain c : plain c -> PathLib.keeps c = true /\ String.eqb c ".." = false.
Proof.
  intros (H1 & H2 & H3). unfold PathLib.keeps.
  apply String.eqb_neq in H1, H2, H3. by rewrite H1, H2, H3.
Qed.

Lemma plain_keeps c :
  PathLib.keeps c = true -> String.eqb c ".." = false -> plain c.
Proof.
  unfold PathLib.keeps. intros [H1 H2]%andb_true_iff H3.
  apply negb_true_iff in H1, H2. by repeat split; apply String.eqb_neq.
Qed.

Lemma plain_ipynb c : PyStr.endswith c ".ipynb" = true -> plain c.
Proof. intros H. repeat split; intros ->; by vm_compute in H. Qed.

(** Plain components resolve to themselves. *)
Lemma resolve_go_plain acc cs :
  Forall plain cs -> PathLib.resolve_go acc cs = rev acc ++ cs.
Proof.
  intros Hall. revert acc. induction Hall as [|c cs Hc Hcs IH]; intros acc; simpl.
  - by rewrite app_nil_r.
  - destruct (keeps_plain c Hc) as [-> ->]. rewrite IH. simpl.
    by rewrite <- app_assoc.
Qed.

(** A resolved path holds plain components only. *)
Lemma resolve_go_is_plain acc cs :
  Forall plain acc -> Forall plain (PathLib.resolve_go acc cs).
Proof.
  revert acc. induction cs as [|c cs IH]; intros acc Hacc; simpl.
  - by apply Forall_rev.
  - destruct (String.eqb c "..") eqn:E1.
    + apply IH. destruct acc; [done|]. by apply Forall_cons in Hacc as [_ ?].
    + destruct (PathLib.keeps c) eqn:E2; [|by apply IH].
      apply IH. constructor; [by apply plain_keeps|done].
Qed.

Lemma resolve_go_app acc xs ys :
  PathLib.resolve_go acc (xs ++ ys)
  = PathLib.resolve_go (rev (PathLib.resolve_go acc xs)) ys.
Proof.
  revert acc. induction xs as [|c xs IH]; intros acc; simpl.
  - by rewrite rev_involutive.
  - destruct (String.eqb c ".."); [apply IH|].
    destruct (PathLib.keeps c); apply IH.
Qed.

Lemma resolve_go_snoc acc xs c :
  plain c -> PathLib.resolve_go acc (xs ++ [c]) = PathLib.resolve_go acc xs ++ [c].
Proof.
  intros Hc. rewrite resolve_go_app. simpl.
  destruct (keeps_plain c Hc) as [-> ->]. simpl. by rewrite rev_involutive.
Qed.

Lemma resolve_go_length acc cs :
  (length (PathLib.resolve_go acc cs) <= length acc + length cs)%nat.
Proof.
  revert acc. induction cs as [|c cs IH]; intros acc; simpl.
  - rewrite length_rev. lia.
  - destruct (String.eqb c "..").
    + specialize (IH (tail acc)). destruct acc; simpl in *; lia.
    + destruct (PathLib.keeps c).
      * specialize (IH (c :: acc)). simpl in IH. lia.
      * specialize (IH acc). lia.
  Qed.

(** What lies on the stack beyond what was there at the start was
    pushed from the components walked. *)
Lemma resolve_go_origin (Q : string -> Prop) acc cs :
  Forall Q cs ->
  exists k suf, PathLib.resolve_go acc cs = take k (rev acc) ++ suf /\ Forall Q suf.
Proof.
  intros Hall. revert acc. induction Hall as [|c cs Hc Hcs IH]; intros acc; simpl.
  - exists (length acc), []. rewrite app_nil_r.
    by rewrite firstn_all2 by (rewrite length_rev; lia).
  - destruct (String.eqb c "..").
    + destruct (IH (tail acc)) as (k & suf & E & Hsuf). rewrite E.
      destruct acc as [|a acc]; simpl in *; [by exists k, suf|].
      exists (Nat.min k (length acc)), suf. split; [|done]. f_equal.
      rewrite <- (length_rev acc), <- take_take.
      by rewrite take_app_length.
    + destruct (PathLib.keeps c).
      * destruct (IH (c :: acc)) as (k & suf & E & Hsuf). rewrite E. simpl.
        destruct (decide (k <= length acc)%nat) as [Hk|Hk].
        -- exists k, suf. split; [|done]. f_equal.
           apply take_app_le. by rewrite length_rev.
        -- exists (length acc), (c :: suf). split; [|by constructor].
           rewrite firstn_all2 by (rewrite length_app, length_rev; simpl; lia).
           rewrite firstn_all2 by (rewrite length_rev; lia).
           by rewrite <- app_assoc.
      * apply IH.
Qed.

End ResolveFacts.

(** ** Resolving twice *)

Section Idempotence.

Variable root : PosixPath.

Lemma normalize_rel_ipynb rel : PyStr.endswith (normalize_rel rel) ".ipynb" = true.
Proof.
  unfold normalize_rel. cbv zeta.
  destruct (PyStr.endswith (PyStr.replace _ _ _) ".ipynb") eqn:E;
    [done|apply endswith_app].
Qed.

Lemma normalize_rel_no_backslash rel :
  PyStr.contains PyStr.backslash (normalize_rel rel) = false.
Proof.
  unfold normalize_rel. cbv zeta.
  destruct (PyStr.endswith (PyStr.replace _ _ _) ".ipynb");
    [|rewrite contains_app, orb_false_iff; split; [|done]];
    by apply contains_replace.
Qed.

(** The components pathlib reads off the normalised string are clean,
    and the last one carries the extension. *)
Lemma parse_parts_normalized rel :
  Forall clean (PathLib.parse_parts (normalize_rel rel))
  /\ exists init cl,
       PathLib.parse_parts (normalize_rel rel) = init ++ [cl]
       /\ PyStr.endswith cl ".ipynb" = true.
Proof.
  unfold PathLib.parse_parts. split.
  - apply Forall_forall. intros c [Hc _]%list_elem_of_In%filter_In.
    pose proof (split_components "/" PyStr.backslash (normalize_rel rel)) as Hall.
    rewrite Forall_forall in Hall. apply list_elem_of_In, Hall in Hc as [H1 H2].
    split; [done|]. apply H2, normalize_rel_no_backslash.
  - destruct (endswith_inv _ _ (normalize_rel_ipynb rel)) as [a ->].
    destruct (split_app_tail "/" a ".ipynb" eq_refl) as (init & la & _ & ->).
    exists (List.filter PathLib.keeps init), (la +:+ ".ipynb").
    assert (He : PyStr.endswith (la +:+ ".ipynb") ".ipynb" = true) by apply endswith_app.
    split; [|done]. rewrite List.filter_app. simpl.
    by destruct (keeps_plain _ (plain_ipynb _ He)) as [-> _].
Qed.

(** The unresolved path: some components no longer than the root's
    after resolution, then the ones read off the string. *)
Lemma joinpath_parts rel :
  exists pre,
    parts (PathLib.joinpath root (normalize_rel rel))
      = pre ++ PathLib.parse_parts (normalize_rel rel)
    /\ (length (PathLib.resolve_go [] pre) <= length (parts root))%nat.
Proof.
  unfold PathLib.joinpath. destruct (PathLib.parse_anchor _); simpl.
  - exists []. split; [done|]. simpl. lia.
  - exists (parts root). split; [done|].
    pose proof (resolve_go_length [] (parts root)). simpl in *. lia.
Qed.

(** What an accepted path holds below the root. *)
Lemma accepted_components rel p cs :
  p = resolved_target root rel ->
  parts p = parts root ++ cs -> cs <> [] ->
  Forall plain cs /\ Forall clean cs
  /\ exists cl, last cs = Some cl /\ PyStr.endswith cl ".ipynb" = true.
Proof.
  intros -> Hparts Hne. unfold resolved_target, PathLib.resolve in Hparts.
  simpl in Hparts.
  destruct (joinpath_parts rel) as (pre & Epre & Hlen). rewrite Epre in Hparts.
  destruct (parse_parts_normalized rel) as (Hclean & init & cl & Einit & Hcl).
  split; [|split].
  - pose proof (resolve_go_is_plain [] (pre ++ PathLib.parse_parts (normalize_rel rel))
                  (Forall_nil_2 _)) as Hp.
    rewrite Hparts in Hp. by apply Forall_app in Hp as [_ ?].
  - rewrite resolve_go_app in Hparts.
    destruct (resolve_go_origin clean (rev (PathLib.resolve_go [] pre))
                (PathLib.parse_parts (normalize_rel rel)) Hclean)
      as (k & suf & E & Hsuf).
    rewrite E, rev_involutive in Hparts.
    assert (Hk : (length (take k (PathLib.resolve_go [] pre)) <= length (parts root))%nat).
    { rewrite length_take. lia. }
    assert (Ecs : cs = drop (length (parts root) - length (take k (PathLib.resolve_go [] pre))) suf).
    { rewrite <- (drop_app_length (parts root) cs), <- Hparts.
      by rewrite drop_app_ge by done. }
    rewrite Ecs. by apply Forall_drop.
  - exists cl. split; [|done].
    rewrite Einit, app_assoc, resolve_go_snoc in Hparts by (by apply plain_ipynb).
    assert (El : last (parts root ++ cs) = Some cl) by (rewrite <- Hparts; apply last_snoc).
    rewrite last_app in El. destruct (last cs) eqn:Ec; [done|].
    apply last_None in Ec. done.
Qed.

(** An accepted request holds no NUL character, and so does no
    component of its path below the root. *)
Lemma accepted_nul_free rel p cs :
  PyStr.contains PyStr.NUL (normalize_rel rel) = false ->
  p = resolved_target root rel ->
  parts p = parts root ++ cs ->
  Forall (fun c => PyStr.contains PyStr.NUL c = false) cs.
Proof.
  intros Hnul -> Hparts. unfold resolved_target, PathLib.resolve in Hparts.
  simpl in Hparts.
  destruct (joinpath_parts rel) as (pre & Epre & Hlen). rewrite Epre in Hparts.
  assert (Hfree : Forall (fun c => PyStr.contains PyStr.NUL c = false)
                         (PathLib.parse_parts (normalize_rel rel))).
  { unfold PathLib.parse_parts. apply Forall_forall.
    intros c [Hc _]%list_elem_of_In%filter_In.
    pose proof (split_components "/" PyStr.NUL (normalize_rel rel)) as Hall.
    rewrite Forall_forall in Hall. apply list_elem_of_In, Hall in Hc as [_ H2]. auto. }
  rewrite resolve_go_app in Hparts.
  destruct (resolve_go_origin _ (rev (PathLib.resolve_go [] pre))
              (PathLib.parse_parts (normalize_rel rel)) Hfree)
    as (k & suf & E & Hsuf).
  rewrite E, rev_involutive in Hparts.
  assert (Hk : (length (take k (PathLib.resolve_go [] pre)) <= length (parts root))%nat).
  { rewrite length_take. lia. }
  assert (Ecs : cs = drop (length (parts root) - length (take k (PathLib.resolve_go [] pre))) suf).
  { rewrite <- (drop_app_length (parts root) cs), <- Hparts.
    by rewrite drop_app_ge by done. }
  rewrite Ecs. by apply Forall_drop.
Qed.

(** The request string made of clean plain components, the last with
    the extension and the first not starting with a space, is left as
    it is by the normalisation, and pathlib reads the components off. *)
Lemma join_normalized cs cl :
  cs <> [] -> Forall plain cs -> Forall clean cs ->
  last cs = Some cl -> PyStr.endswith cl ".ipynb" = true ->
  leading_space (PyStr.join "/" cs) = false ->
  normalize_rel (PyStr.join "/" cs) = PyStr.join "/" cs
  /\ PathLib.parse_anchor (PyStr.join "/" cs) = None
  /\ PathLib.parse_parts (PyStr.join "/" cs) = cs.
Proof.
  intros Hne Hplain Hclean Hlast Hcl Hsp.
  assert (Hend : PyStr.endswith (PyStr.join "/" cs) ".ipynb" = true)
    by (by eapply endswith_join_last).
  assert (Hslash : PyStr.startswith (PyStr.join "/" cs) "/" = false).
  { destruct cs as [|x l]; [done|].
    apply Forall_cons in Hplain as [(Hx & _) _]. apply Forall_cons in Hclean as [[Hx1 _] _].
    destruct (leading_join "/" x l Hx) as [_ ->]. by apply startswith_char_contains. }
  assert (Hbs : PyStr.contains PyStr.backslash (PyStr.join "/" cs) = false).
  { apply contains_join; [done|]. eapply Forall_impl; [exact Hclean|]. by intros c [_ ?]. }
  split; [|split].
  - unfold normalize_rel. rewrite (strip_fixed _ Hsp Hend).
    rewrite (lstrip_char_fixed _ _ Hslash), (replace_fixed _ _ _ Hbs). by rewrite Hend.
  - unfold PathLib.parse_anchor. by rewrite Hslash.
  - unfold PathLib.parse_parts. rewrite split_join; [|done|].
    + clear -Hplain. induction Hplain as [|c l Hc Hl IH]; simpl; [done|].
      destruct (keeps_plain c Hc) as [-> _]. by rewrite IH.
    + eapply Forall_impl; [exact Hclean|]. by intros c [? _].
Qed.

End Idempotence.

(** C6, as the code has it.  [_safe_nb_path] takes a path relative to
    the root, so the idempotence is on that form: when it accepts a
    request with a result [p] below the root, and [p] written relative
    to the root does not start with a space, resolving that relative
    form gives [p] again. *)
Theorem safe_nb_path_idempotent_relative root rel p :
  _safe_nb_path root rel = Ok p ->
  p <> root ->
  leading_space (PyStr.join "/" (PathLib.relative_to p root)) = false ->
  _safe_nb_path root (PyStr.join "/" (PathLib.relative_to p root)) = Ok p.
Proof.
  intros Hok Hne Hsp.
  apply safe_nb_path_ok in Hok as (Hnul & Hp & [->|Hin]); [done|].
  pose proof Hin as (Hd & cs & Hcs & Hparts).
  assert (Erel : PathLib.relative_to p root = cs).
  { unfold PathLib.relative_to. rewrite Hparts. apply drop_app_length. }
  rewrite Erel in *.
  destruct (accepted_components root rel p cs Hp Hparts Hcs)
    as (Hplain & Hclean & cl & Hlast & Hcl).
  destruct (join_normalized cs cl Hcs Hplain Hclean Hlast Hcl Hsp) as (En & Ea & Epp).
  apply safe_nb_path_ok. split; [|split; [|by right]].
  - rewrite En. apply contains_join; [done|].
    by apply (accepted_nul_free root rel p cs).
  - unfold resolved_target, PathLib.joinpath. rewrite En, Ea, Epp.
    unfold PathLib.resolve. simpl. rewrite <- Hparts.
    rewrite resolve_go_plain.
    + subst p. done.
    + subst p. apply resolve_go_is_plain. constructor.
Qed.

Lemma safe_nb_path_idempotent_relative_witness :
  _safe_nb_path demo_root "  /x/../sub//a " = Ok (mkPath false ["srv"; "notebooks"; "sub"; "a.ipynb"])
  /\ _safe_nb_path demo_root "sub/a.ipynb" = Ok (mkPath false ["srv"; "notebooks"; "sub"; "a.ipynb"]).
Proof.
  split; [vm_compute; reflexivity|].
  apply (safe_nb_path_idempotent_relative demo_root "  /x/../sub//a "
           (mkPath false ["srv"; "notebooks"; "sub"; "a.ipynb"])).
  - vm_compute; reflexivity.
  - discriminate.
  - reflexivity.
Defined.

(** C6, as stated, fails: the resolved path is absolute, and resolving
    its text again nests it under the root a second time. *)
Lemma safe_nb_path_not_idempotent :
  _safe_nb_path demo_root "a" = Ok demo_path
  /\ PathLib.str demo_path = "/srv/notebooks/a.ipynb"
  /\ _safe_nb_path demo_root (PathLib.str demo_path)
     = Ok (mkPath false ["srv"; "notebooks"; "srv"; "notebooks"; "a.ipynb"])
  /\ _safe_nb_path demo_root (PathLib.str demo_path) <> Ok demo_path.
Proof.
  split; [vm_compute; reflexivity|]. split; [vm_compute; reflexivity|].
  split; [vm_compute; reflexivity|].
  intros H. vm_compute in H. congruence.
Qed.

(** The condition on the first character is needed: a component that
    starts with a space loses it on the second pass. *)
Example safe_nb_path_leading_space :
  _safe_nb_path demo_root "./ x" = Ok (mkPath false ["srv"; "notebooks"; " x.ipynb"])
  /\ _safe_nb_path demo_root " x.ipynb" = Ok (mkPath false ["srv"; "notebooks"; "x.ipynb"]).
Proof. split; vm_compute; reflexivity. Qed.

(** ** The sandbox *)

(** The normalisation neither removes nor introduces a NUL character. *)
Lemma normalize_rel_nul rel :
  PyStr.contains PyStr.NUL (normalize_rel rel) = PyStr.contains PyStr.NUL rel.
Proof.
  assert (E : PyStr.contains PyStr.NUL
                (PyStr.replace PyStr.backslash "/"
                   (PyStr.lstrip_char "/" (PyStr.strip rel)))
              = PyStr.contains PyStr.NUL rel).
  { rewrite contains_replace_other by done.
    rewrite contains_lstrip_char by done.
    unfold PyStr.strip. by rewrite contains_rstrip, contains_lstrip. }
  unfold normalize_rel. cbv zeta.
  destruct (PyStr.endswith _ ".ipynb"); [done|].
  rewrite contains_app, E. apply orb_false_r.
Qed.




(** * Further properties of the notebook routes *)

(** ** The document store *)

Lemma read_missing p fs :
  fs !! p = None ->
  below_a_file fs p = false ->
  _read_nb p (mkWorld fs []) =
  (Ok (mkNotebook "{}" [0%nat]),
   mkWorld (<[p := NotebookFile default_document]> fs) (cells default_document)).
Proof.
  intros Hp Hfree. unfold _read_nb.
  rewrite (bind_ok _ _ false (mkWorld fs []) (mkWorld fs [])).
  2:{ unfold path_exists. simpl. rewrite Hp. rewrite bool_decide_false; [done|].
      by intros [? ?]. }
  cbn [negb].
  rewrite (bind_ok _ _ [0%nat] (mkWorld fs []) (mkWorld fs (cells default_document)))
    by done.
  rewrite (bind_ok _ _ () _ _ (mkdir_parent_ok p (mkWorld fs (cells default_document)) Hfree)).
  reflexivity.
Qed.

Lemma read_blocked p fs :
  fs !! p = None ->
  below_a_file fs p = true ->
  exists h, _read_nb p (mkWorld fs []) = (Raise OSError, mkWorld fs h).
Proof.
  intros Hp Hb. unfold _read_nb.
  rewrite (bind_ok _ _ false (mkWorld fs []) (mkWorld fs [])).
  2:{ unfold path_exists. simpl. rewrite Hp. rewrite bool_decide_false; [done|].
      by intros [? ?]. }
  cbn [negb].
  rewrite (bind_ok _ _ [0%nat] (mkWorld fs []) (mkWorld fs (cells default_document)))
    by done.
  rewrite (bind_raise _ _ _ _ _ (mkdir_parent_raise p (mkWorld fs (cells default_document)) Hb)).
  eauto.
Qed.

Lemma read_garbage p fs :
  fs !! p = Some Garbage ->
  _read_nb p (mkWorld fs []) = (Raise CorruptDocument, mkWorld fs []).
Proof.
  intros Hp. unfold _read_nb.
  rewrite (bind_ok _ _ true (mkWorld fs []) (mkWorld fs [])).
  2:{ unfold path_exists. simpl. rewrite Hp. by rewrite bool_decide_true by eauto. }
  unfold try_except, nbformat_read. simpl. by rewrite Hp.
Qed.

Lemma get_stored root rel p d fs :
  _safe_nb_path root rel = Ok p ->
  fs !! p = Some (NotebookFile d) ->
  serve (get_notebook root rel) fs = (Ok d, fs).
Proof.
  intros Hs Hp. unfold serve, get_notebook.
  rewrite (bind_ok _ _ p (mkWorld fs []) (mkWorld fs [])) by (unfold lift; by rewrite Hs).
  rewrite (bind_ok _ _ _ _ _ (read_stored _ _ _ Hp)).
  unfold snapshot. simpl. rewrite serialise_all. by destruct d.
Qed.



(** A request below the stored notebook [a.ipynb]. *)
Example get_notebook_below_a_file :
  _safe_nb_path demo_root "a.ipynb/b"
    = Ok (mkPath false ["srv"; "notebooks"; "a.ipynb"; "b.ipynb"])
  /\ (serve (get_notebook demo_root "a.ipynb/b") (demo_fs fresh_doc)).1 = Raise OSError.
Proof. split; vm_compute; reflexivity. Qed.

(** X2. A file nbformat cannot read makes [get_notebook], [run_all] and
    [run_cell] raise the 500 error of [_read_nb]; the file is left as it
    is and no kernel is started. *)
Theorem unreadable_notebook_is_reported root K rel p fs t idx :
  _safe_nb_path root rel = Ok p ->
  fs !! p = Some Garbage ->
  serve (get_notebook root rel) fs = (Raise CorruptDocument, fs)
  /\ serve (run_all root K rel t) fs = (Raise CorruptDocument, fs)
  /\ serve (run_cell root K rel idx t) fs = (Raise CorruptDocument, fs)
  /\ status_code CorruptDocument = 500.
Proof.
  intros Hs Hp. unfold serve, get_notebook, run_all, run_cell.
  rewrite !(bind_ok _ _ p (mkWorld fs []) (mkWorld fs []))
    by (unfold lift; by rewrite Hs).
  rewrite !(bind_raise _ _ _ _ _ (read_garbage _ _ Hp)). done.
Qed.

Lemma unreadable_notebook_is_reported_witness :
  serve (run_all demo_root echo_kernel "a" 120) {[ demo_path := Garbage ]}
    = (Raise CorruptDocument, {[ demo_path := Garbage ]}).
Proof.
  apply (unreadable_notebook_is_reported demo_root echo_kernel "a" demo_path
           {[ demo_path := Garbage ]} 120 0).
  - vm_compute; reflexivity.
  - vm_compute; reflexivity.
Defined.



(** ** What a run changes and what it keeps *)

Section RunFacts.

Variable K : Kernel.
Variable t : Z.

Lemma executed_heap_shape refs (h : list cell) l c' :
  executed_heap K t refs h !! l = Some c' ->
  exists c, h !! l = Some c /\ ctype c' = ctype c /\ source c' = source c.
Proof.
  unfold executed_heap. destruct (kstart K) as [st|]; [|by eauto].
  intros Hl. pose proof (execute_cells_shape K t st refs h l) as Hsh.
  rewrite Hl in Hsh. destruct (h !! l) as [c|]; [|done].
  injection Hsh as H1 H2. eauto.
Qed.

(** The loop never removes a result key from a cell. *)
Lemma execute_cells_keys st refs (h : list cell) l c c' :
  h !! l = Some c -> has_result_keys c ->
  (execute_cells K t st refs h).1 !! l = Some c' -> has_result_keys c'.
Proof.
  revert st h c. induction refs as [|l0 r IH]; intros st h c Hc Hk; simpl.
  - intros Hc'. congruence.
  - destruct (h !! l0) as [c0|] eqn:E0; [|simpl; intros; congruence].
    destruct (skipped c0); [by eapply IH|].
    assert (Hlt : (l0 < length h)%nat) by (apply lookup_lt_is_Some; eauto).
    destruct (kexec K t st (source c0)) as [outs n st'|outs cnt]; simpl.
    + destruct (decide (l0 = l)) as [->|Hne].
      * apply (IH st' _ (completed c0 outs n)); [by apply list_lookup_insert_eq|].
        split; simpl; eauto.
      * apply (IH st' _ c); [by rewrite list_lookup_insert_ne|done].
    + destruct (decide (l0 = l)) as [->|Hne].
      * rewrite list_lookup_insert_eq by done. intros [= <-].
        assert (c0 = c) as -> by congruence.
        split; simpl; [eauto|]. destruct cnt; [eauto|apply Hk].
      * rewrite list_lookup_insert_ne by done. congruence.
Qed.

Lemma executed_heap_keys refs (h : list cell) l c c' :
  h !! l = Some c -> has_result_keys c ->
  executed_heap K t refs h !! l = Some c' -> has_result_keys c'.
Proof.
  unfold executed_heap. destruct (kstart K); [apply execute_cells_keys|].
  intros. congruence.
Qed.

(** Running the same cells again, from a fresh session, changes nothing. *)
Lemma execute_cells_again st refs (h : list cell) :
  NoDup refs ->
  execute_cells K t st refs (execute_cells K t st refs h).1
  = execute_cells K t st refs h.
Proof.
  intros Hnd. revert st h. induction Hnd as [|l r Hl Hnd IH]; intros st h; simpl; [done|].
  destruct (h !! l) as [c|] eqn:E; [|simpl; by rewrite E].
  destruct (skipped c) eqn:Es.
  - rewrite (execute_cells_skipped K t st r h l c E Es), Es. apply IH.
  - assert (Hlt : (l < length h)%nat) by (apply lookup_lt_is_Some; eauto).
    destruct (kexec K t st (source c)) as [outs n st'|outs cnt] eqn:Ek; simpl.
    + rewrite execute_cells_frame by done.
      rewrite list_lookup_insert_eq by done.
      change (skipped (completed c outs n)) with (skipped c). rewrite Es.
      change (source (completed c outs n)) with (source c). rewrite Ek.
      rewrite list_insert_id.
      * apply IH.
      * rewrite execute_cells_frame by done. by apply list_lookup_insert_eq.
    + rewrite list_lookup_insert_eq by done.
      change (skipped (aborted c outs cnt)) with (skipped c). rewrite Es.
      change (source (aborted c outs cnt)) with (source c). rewrite Ek.
      rewrite list_insert_insert_eq. do 2 f_equal.
      unfold aborted. simpl. by destruct cnt.
Qed.

Lemma executed_heap_again refs (h : list cell) :
  NoDup refs ->
  executed_heap K t refs (executed_heap K t refs h) = executed_heap K t refs h.
Proof.
  intros Hnd. unfold executed_heap. destruct (kstart K); [|done].
  by rewrite execute_cells_again.
Qed.

Lemma executed_heap_split (h : list cell) n :
  (n <= length h)%nat ->
  executed_heap K t (seq 0 n) h
  = executed_heap K t (seq 0 n) (take n h) ++ drop n h.
Proof.
  intros Hn. unfold executed_heap. destruct (kstart K) as [st|].
  - rewrite <- (take_drop n h) at 1. rewrite execute_cells_heap_app; [done|].
    apply Forall_forall. intros l Hl%elem_of_seq. rewrite length_take. lia.
  - by rewrite take_drop.
Qed.

End RunFacts.

Lemma merged_with_keys c : has_result_keys c -> merged c = c.
Proof.
  intros [[o Ho] [e He]]. destruct c as [ty src outs ec]. simpl in *. subst.
  reflexivity.
Qed.

(** X4. [run_all] on a stored document persists what it returns, and
    that document has the number of cells and, cell by cell, the kind
    and the source of the stored one: in the cells, a run only ever
    changes outputs and execution counts. *)
Theorem run_all_keeps_shape root K rel t p d fs :
  _safe_nb_path root rel = Ok p ->
  fs !! p = Some (NotebookFile d) ->
  exists d',
    serve (run_all root K rel t) fs = (Ok d', <[p := NotebookFile d']> fs)
    /\ length (cells d') = length (cells d)
    /\ forall j c', cells d' !! j = Some c' ->
         exists c, cells d !! j = Some c /\ ctype c' = ctype c /\ source c' = source c.
Proof.
  intros Hs Hp. eexists. split; [by apply run_all_stored|].
  split; [apply executed_heap_length|].
  intros j c'. apply executed_heap_shape.
Qed.

Lemma run_all_keeps_shape_witness :
  exists d',
    serve (run_all demo_root echo_kernel "a" 120) (demo_fs fresh_doc)
      = (Ok d', <[demo_path := NotebookFile d']> (demo_fs fresh_doc))
    /\ length (cells d') = length (cells fresh_doc)
    /\ forall j c', cells d' !! j = Some c' ->
         exists c, cells fresh_doc !! j = Some c /\ ctype c' = ctype c /\ source c' = source c.
Proof.
  apply (run_all_keeps_shape demo_root echo_kernel "a" 120 demo_path fresh_doc
           (demo_fs fresh_doc)).
  - vm_compute; reflexivity.
  - vm_compute; reflexivity.
Defined.

(** X5. With a session provider that answers the same sources the same
    way, [run_all] is idempotent on the stored document: a second
    [run_all] returns and persists exactly what the first one did. *)
Theorem run_all_twice root K rel t p d fs :
  _safe_nb_path root rel = Ok p ->
  fs !! p = Some (NotebookFile d) ->
  exists d',
    serve (run_all root K rel t) fs = (Ok d', <[p := NotebookFile d']> fs)
    /\ serve (run_all root K rel t) (<[p := NotebookFile d']> fs)
       = (Ok d', <[p := NotebookFile d']> fs).
Proof.
  intros Hs Hp. eexists. split; [by apply run_all_stored|].
  rewrite (run_all_stored root K rel t p _ _ Hs (lookup_insert_eq _ _ _)).
  cbn [cells metadata]. rewrite executed_heap_length.
  rewrite executed_heap_again by apply NoDup_seq.
  by rewrite insert_insert_eq.
Qed.

Lemma run_all_twice_witness :
  exists d',
    serve (run_all demo_root echo_kernel "a" 120) (demo_fs late_hang_doc)
      = (Ok d', <[demo_path := NotebookFile d']> (demo_fs late_hang_doc))
    /\ serve (run_all demo_root echo_kernel "a" 120)
         (<[demo_path := NotebookFile d']> (demo_fs late_hang_doc))
       = (Ok d', <[demo_path := NotebookFile d']> (demo_fs late_hang_doc)).
Proof.
  apply (run_all_twice demo_root echo_kernel "a" 120 demo_path late_hang_doc
           (demo_fs late_hang_doc)).
  - vm_compute; reflexivity.
  - vm_compute; reflexivity.
Defined.





(** ** Runs on a path without a file, and runs that are never cut *)

Lemma executed_default K t :
  executed_heap K t [0%nat] (cells default_document) = cells default_document.
Proof. unfold executed_heap. by destruct (kstart K). Qed.





Section Uncut.

Variable K : Kernel.
Variable t : Z.
Hypothesis Hall : answers_all K t.

Lemma execute_cells_uncut st refs (h : list cell) :
  Forall (fun l => (l < length h)%nat) refs ->
  NoDup refs ->
  exists h' st',
    execute_cells K t st refs h = (h', Some st')
    /\ forall l c, l ∈ refs -> h !! l = Some c -> skipped c = false ->
         exists outs count, h' !! l = Some (completed c outs count).
Proof.
  intros Hin Hnd. revert st h Hin.
  induction Hnd as [|l0 r Hl0 Hnd IH]; intros st h Hin; simpl.
  - eexists _, _. split; [done|]. intros l c Hl. by apply elem_of_nil in Hl.
  - apply Forall_cons in Hin as [Hlt Hin].
    destruct (h !! l0) as [c0|] eqn:E0; [|apply lookup_ge_None in E0; lia].
    destruct (skipped c0) eqn:Es0.
    + destruct (IH st h Hin) as (h' & st' & E & Hres).
      exists h', st'. split; [done|]. intros l c Hl Hc Hs.
      apply elem_of_cons in Hl as [->|Hl]; [congruence|]. by apply Hres.
    + destruct (Hall st (source c0)) as (outs & n & st1 & Ek). rewrite Ek.
      destruct (IH st1 (<[l0 := completed c0 outs n]> h)) as (h' & st' & E & Hres).
      { eapply Forall_impl; [exact Hin|]. simpl. intros l Hl.
        by rewrite length_insert. }
      exists h', st'. split; [done|]. intros l c Hl Hc Hs.
      apply elem_of_cons in Hl as [->|Hl].
      * exists outs, n. assert (c = c0) as -> by congruence.
        replace h' with (execute_cells K t st1 r (<[l0 := completed c0 outs n]> h)).1
          by (by rewrite E).
        rewrite execute_cells_frame by done. by apply list_lookup_insert_eq.
      * apply Hres; [done| |done].
        rewrite list_lookup_insert_ne; [done|]. intros ->. done.
Qed.

End Uncut.


Lemma steady_kernel_answers_all : answers_all steady_kernel 120.
Proof.
  intros st src. simpl. unfold steady_exec. destruct (String.eqb src "boom"); eauto.
Qed.


(** ** The sibling routes of [v2main.py] *)

Section ClientFacts.

Variable K : Kernel.
Variable t : Z.

Lemma client_faulted nb w :
  faulted K t (nb_cells nb) (heap w) ->
  NotebookClient_execute K nb t w
  = (Raise ExecutionFault, set_heap w (executed_heap K t (nb_cells nb) (heap w))).
Proof.
  unfold faulted, NotebookClient_execute, executed_heap.
  destruct (kstart K) as [st|]; [|by destruct w].
  destruct (execute_cells K t st (nb_cells nb) (heap w)) as [h [st'|]]; simpl; [|done].
  intros [=].
Qed.

Lemma client_returns nb w :
  ~ faulted K t (nb_cells nb) (heap w) ->
  NotebookClient_execute K nb t w
  = (Ok nb, set_heap w (executed_heap K t (nb_cells nb) (heap w))).
Proof.
  unfold faulted, NotebookClient_execute, executed_heap.
  destruct (kstart K) as [st|]; [|by intros []].
  destruct (execute_cells K t st (nb_cells nb) (heap w)) as [h [st'|]]; simpl; [done|].
  by intros [].
Qed.

End ClientFacts.

Lemma serialise_same_length m (h h' : list cell) :
  length h' = length h ->
  serialise (mkNotebook m (seq 0 (length h))) h' = mkDocument m h'.
Proof. intros <-. apply serialise_all. Qed.

Lemma try_except_ok {A} (m : M A) h a w w' :
  m w = (Ok a, w') -> try_except m h w = (Ok a, w').
Proof. unfold try_except. by intros ->. Qed.

Lemma try_except_raise {A} (m : M A) h e w w' :
  m w = (Raise e, w') -> try_except m h w = h e w'.
Proof. unfold try_except. by intros ->. Qed.

Lemma nb_run_cell_enter root K rel idx t p d fs :
  _safe_nb_path root rel = Ok p ->
  fs !! p = Some (NotebookFile d) ->
  0 <= idx < len (cells d) ->
  exists body handler,
    serve (V2Main.nb_run_cell root K rel idx t) fs
      = (let '(r, w) := try_except body handler (mkWorld fs (cells d)) in (r, disk w))
    /\ handler = (fun _ => raise CellExecutionFailed)
    /\ body =
       (executed_partial ← V2Main._execute_notebook K
            (mkNotebook (metadata d) (seq 0 (S (Z.to_nat idx)))) t;
        executed_cell ← item (nb_cells executed_partial)
                             (length (nb_cells executed_partial) - 1)%nat;
        target ← item (seq 0 (length (cells d))) (Z.to_nat idx);
        c ← deref executed_cell;
        _ ← setattr_outputs target (get_outputs c);
        c ← deref executed_cell;
        _ ← setattr_execution_count target (get_execution_count c);
        _ ← V2Main._write_nb p (mkNotebook (metadata d) (seq 0 (length (cells d))));
        c ← deref executed_cell;
        doc ← snapshot (mkNotebook (metadata d) (seq 0 (length (cells d))));
        mret (mkNbRunCell (V2Main.relative_name root p) idx c doc)).
Proof.
  intros Hs Hp Hidx.
  assert (Hi : (Z.to_nat idx < length (cells d))%nat) by (unfold len in Hidx; lia).
  eexists _, _. split; [|split; reflexivity].
  unfold serve, V2Main.nb_run_cell.
  rewrite (bind_ok _ _ p (mkWorld fs []) (mkWorld fs [])) by (unfold lift; by rewrite Hs).
  rewrite (bind_ok _ _ _ _ _ (v2_read_stored _ _ _ Hp)).
  cbn [nb_cells nb_metadata].
  assert (Hb : (idx <? 0) || (idx >=? len (seq 0 (length (cells d)))) = false).
  { apply len_bounds. unfold len in *. rewrite length_seq. lia. }
  rewrite Hb.
  replace (Z.to_nat (idx + 1)) with (S (Z.to_nat idx)) by lia.
  rewrite take_seq.
  replace (Nat.min (S (Z.to_nat idx)) (length (cells d))) with (S (Z.to_nat idx)) by lia.
  reflexivity.
Qed.

Lemma nb_run_all_faulted root K rel t p d fs :
  _safe_nb_path root rel = Ok p ->
  fs !! p = Some (NotebookFile d) ->
  faulted K t (seq 0 (length (cells d))) (cells d) ->
  serve (V2Main.nb_run_all root K rel t) fs = (Raise NotebookExecutionFailed, fs)
  /\ status_code NotebookExecutionFailed = 500.
Proof.
  intros Hs Hp Hf. split; [|done]. unfold serve, V2Main.nb_run_all.
  rewrite (bind_ok _ _ p (mkWorld fs []) (mkWorld fs [])) by (unfold lift; by rewrite Hs).
  rewrite (bind_ok _ _ _ _ _ (v2_read_stored _ _ _ Hp)).
  erewrite try_except_raise.
  2:{ apply bind_raise. unfold V2Main._execute_notebook. by apply client_faulted. }
  reflexivity.
Qed.

(** X8. In [v2main.py] a fault of the client is not absorbed:
    [nb_run_all] answers with the 500 error and writes nothing, so the
    stored document is what it was. *)
Theorem nb_run_all_propagates_faults root K rel t p d fs :
  _safe_nb_path root rel = Ok p ->
  fs !! p = Some (NotebookFile d) ->
  faulted K t (seq 0 (length (cells d))) (cells d) ->
  serve (V2Main.nb_run_all root K rel t) fs = (Raise NotebookExecutionFailed, fs)
  /\ status_code NotebookExecutionFailed = 500.
Proof.
  intros Hs Hp Hf. split; [|done]. unfold serve, V2Main.nb_run_all.
  rewrite (bind_ok _ _ p (mkWorld fs []) (mkWorld fs [])) by (unfold lift; by rewrite Hs).
  rewrite (bind_ok _ _ _ _ _ (v2_read_stored _ _ _ Hp)).
  erewrite try_except_raise.
  2:{ apply bind_raise. unfold V2Main._execute_notebook. by apply client_faulted. }
  reflexivity.
Qed.

Lemma nb_run_all_propagates_faults_witness :
  serve (V2Main.nb_run_all demo_root echo_kernel "a" 120) (demo_fs late_hang_doc)
    = (Raise NotebookExecutionFailed, demo_fs late_hang_doc).
Proof.
  apply (nb_run_all_propagates_faults demo_root echo_kernel "a" 120 demo_path
           late_hang_doc (demo_fs late_hang_doc)).
  - vm_compute; reflexivity.
  - vm_compute; reflexivity.
  - reflexivity.
Defined.

Lemma nb_run_cell_faulted root K rel idx t p d fs :
  _safe_nb_path root rel = Ok p ->
  fs !! p = Some (NotebookFile d) ->
  0 <= idx < len (cells d) ->
  faulted K t (seq 0 (S (Z.to_nat idx))) (cells d) ->
  serve (V2Main.nb_run_cell root K rel idx t) fs = (Raise CellExecutionFailed, fs).
Proof.
  intros Hs Hp Hidx Hf.
  destruct (nb_run_cell_enter root K rel idx t p d fs Hs Hp Hidx) as (body & handler & -> & -> & ->).
  erewrite try_except_raise.
  2:{ apply bind_raise. unfold V2Main._execute_notebook. by apply client_faulted. }
  reflexivity.
Qed.

(** X9. Likewise [nb_run_cell]: when the client raises while replaying
    the cells up to the target, the route answers with the 500 error
    and the stored document is what it was. *)
Theorem nb_run_cell_propagates_faults root K rel idx t p d fs :
  _safe_nb_path root rel = Ok p ->
  fs !! p = Some (NotebookFile d) ->
  0 <= idx < len (cells d) ->
  faulted K t (seq 0 (S (Z.to_nat idx))) (cells d) ->
  serve (V2Main.nb_run_cell root K rel idx t) fs = (Raise CellExecutionFailed, fs).
Proof.
  intros Hs Hp Hidx Hf.
  destruct (nb_run_cell_enter root K rel idx t p d fs Hs Hp Hidx) as (body & handler & -> & -> & ->).
  erewrite try_except_raise.
  2:{ apply bind_raise. unfold V2Main._execute_notebook. by apply client_faulted. }
  reflexivity.
Qed.

Lemma nb_run_cell_propagates_faults_witness :
  serve (V2Main.nb_run_cell demo_root echo_kernel "a" 1 120) (demo_fs late_hang_doc)
    = (Raise CellExecutionFailed, demo_fs late_hang_doc).
Proof.
  apply (nb_run_cell_propagates_faults demo_root echo_kernel "a" 1 120 demo_path
           late_hang_doc (demo_fs late_hang_doc)).
  - vm_compute; reflexivity.
  - vm_compute; reflexivity.
  - by vm_compute.
  - reflexivity.
Defined.

(** [nb_run_cell] on a stored document, at an index in range, when the
    client returns. *)
Lemma nb_run_cell_stored root K rel idx t p d fs :
  _safe_nb_path root rel = Ok p ->
  fs !! p = Some (NotebookFile d) ->
  0 <= idx < len (cells d) ->
  ~ faulted K t (seq 0 (S (Z.to_nat idx))) (cells d) ->
  let i := Z.to_nat idx in
  let h1 := executed_heap K t (seq 0 (S i)) (cells d) in
  exists c1, h1 !! i = Some c1 /\
    let d' := mkDocument (metadata d) (<[i := merged c1]> h1) in
    serve (V2Main.nb_run_cell root K rel idx t) fs =
    (Ok (mkNbRunCell (V2Main.relative_name root p) idx (merged c1) d'),
     <[p := NotebookFile d']> fs).
Proof.
  intros Hs Hp Hidx Hf i h1.
  assert (Hi : (i < length (cells d))%nat) by (unfold len in Hidx; lia).
  assert (Hlen : length h1 = length (cells d)) by apply executed_heap_length.
  destruct (h1 !! i) as [c1|] eqn:Hc1;
    [|apply lookup_ge_None in Hc1; lia].
  exists c1. split; [done|]. intros d'.
  destruct (nb_run_cell_enter root K rel idx t p d fs Hs Hp Hidx) as (body & handler & -> & -> & ->).
  fold i.
  set (w1 := mkWorld fs h1).
  set (w2 := mkWorld fs (alter (fun c' => with_outputs c' (get_outputs c1)) i h1)).
  set (w3 := mkWorld fs (<[i := merged c1]> h1)).
  set (w4 := mkWorld (<[p := NotebookFile d']> fs) (<[i := merged c1]> h1)).
  assert (El : length (<[i := merged c1]> h1) = length (cells d))
    by (by rewrite length_insert).
  erewrite (try_except_ok _ _
              (mkNbRunCell (V2Main.relative_name root p) idx (merged c1) d') _ w4);
    [reflexivity|].
  rewrite (bind_ok _ _ (mkNotebook (metadata d) (seq 0 (S i))) _ w1)
    by (unfold V2Main._execute_notebook; by rewrite client_returns).
  cbn [nb_cells]. rewrite length_seq. replace (S i - 1)%nat with i by lia.
  rewrite (bind_ok _ _ i w1 w1) by (unfold item; rewrite lookup_seq_lt; [done|lia]).
  rewrite (bind_ok _ _ i w1 w1) by (unfold item; rewrite lookup_seq_lt; [done|lia]).
  rewrite (bind_ok _ _ c1 w1 w1) by (unfold deref; simpl; by rewrite Hc1).
  rewrite (bind_ok _ _ () w1 w2) by done.
  rewrite (bind_ok _ _ (with_outputs c1 (get_outputs c1)) w2 w2)
    by (unfold deref; simpl; by rewrite list_lookup_alter_eq, Hc1).
  rewrite (bind_ok _ _ () w2 w3)
    by (unfold setattr_execution_count, set_heap; simpl;
        by rewrite (merged_spec _ _ _ Hc1)).
  rewrite (bind_ok _ _ () w3 w4).
  2:{ rewrite (v2_write_nb_ok p _ w3)
        by (apply not_below_stored; unfold w3; simpl; eauto).
      unfold set_disk, w3, w4, d'; cbn [heap disk].
      rewrite <- El. by rewrite serialise_all. }
  rewrite (bind_ok _ _ (merged c1) w4 w4)
    by (unfold deref; simpl; rewrite list_lookup_insert_eq; [done|lia]).
  unfold mbind, M_bind, mret, M_ret, snapshot, w4, d'; simpl.
  rewrite <- El. by rewrite serialise_all.
Qed.

(** X10. When the client returns normally the two implementations of the
    single-cell run persist the same file and answer the same cell
    index and the same updated notebook.  The cell [nb_run_cell] of
    [v2main.py] answers is the whole target cell as persisted; its
    source, outputs and execution count are the three fields [run_cell]
    of [backend/notebooks.py] answers.  The path [nb_run_cell] answers
    is the one relative to the notebook directory. *)
Theorem nb_run_cell_agrees root K rel idx t p d fs :
  _safe_nb_path root rel = Ok p ->
  fs !! p = Some (NotebookFile d) ->
  0 <= idx < len (cells d) ->
  ~ faulted K t (seq 0 (S (Z.to_nat idx))) (cells d) ->
  exists resp c fs',
    serve (run_cell root K rel idx t) fs = (Ok resp, fs')
    /\ serve (V2Main.nb_run_cell root K rel idx t) fs
       = (Ok (mkNbRunCell (V2Main.relative_name root p) idx c (resp_notebook resp)), fs')
    /\ resp_cell_index resp = idx
    /\ resp_cell resp = view_of c
    /\ cells (resp_notebook resp) !! Z.to_nat idx = Some c
    /\ fs' = <[p := NotebookFile (resp_notebook resp)]> fs.
Proof.
  intros Hs Hp Hidx Hf.
  destruct (run_cell_stored root K rel idx t p d fs Hs Hp Hidx) as (c1 & Hc1 & Hrun).
  destruct (nb_run_cell_stored root K rel idx t p d fs Hs Hp Hidx Hf) as (c2 & Hc2 & Hrun2).
  cbn zeta in Hrun, Hrun2.
  assert (c2 = c1) as -> by congruence.
  eexists _, (merged c1), _. split; [exact Hrun|].
  cbn [resp_notebook resp_cell_index resp_cell].
  split; [exact Hrun2|]. split; [done|]. split; [by destruct c1|]. split; [|done].
  cbn [cells]. apply list_lookup_insert_eq.
  apply lookup_lt_Some in Hc1. by rewrite executed_heap_length in *.
Qed.

Lemma nb_run_cell_agrees_witness :
  exists resp c fs',
    serve (run_cell demo_root echo_kernel "a" 2 120) (demo_fs fresh_doc) = (Ok resp, fs')
    /\ serve (V2Main.nb_run_cell demo_root echo_kernel "a" 2 120) (demo_fs fresh_doc)
       = (Ok (mkNbRunCell (V2Main.relative_name demo_root demo_path) 2 c
                (resp_notebook resp)), fs')
    /\ resp_cell_index resp = 2
    /\ resp_cell resp = view_of c
    /\ cells (resp_notebook resp) !! Z.to_nat 2 = Some c
    /\ fs' = <[demo_path := NotebookFile (resp_notebook resp)]> (demo_fs fresh_doc).
Proof.
  apply (nb_run_cell_agrees demo_root echo_kernel "a" 2 120 demo_path fresh_doc
           (demo_fs fresh_doc)).
  - vm_compute; reflexivity.
  - vm_compute; reflexivity.
  - by vm_compute.
  - intros H. vm_compute in H. discriminate H.
Defined.

(** [nb_run_all] on a stored document, when the client returns. *)
Lemma nb_run_all_stored root K rel t p d fs :
  _safe_nb_path root rel = Ok p ->
  fs !! p = Some (NotebookFile d) ->
  ~ faulted K t (seq 0 (length (cells d))) (cells d) ->
  let d' := mkDocument (metadata d)
              (executed_heap K t (seq 0 (length (cells d))) (cells d)) in
  serve (V2Main.nb_run_all root K rel t) fs
  = (Ok (mkNbRunAll (V2Main.relative_name root p) d'), <[p := NotebookFile d']> fs).
Proof.
  intros Hs Hp Hf d'.
  set (h1 := executed_heap K t (seq 0 (length (cells d))) (cells d)) in *.
  unfold serve, V2Main.nb_run_all.
  rewrite (bind_ok _ _ p (mkWorld fs []) (mkWorld fs [])) by (unfold lift; by rewrite Hs).
  rewrite (bind_ok _ _ _ _ _ (v2_read_stored _ _ _ Hp)).
  pose proof (executed_heap_length K t (seq 0 (length (cells d))) (cells d)) as E.
  fold h1 in E.
  erewrite (try_except_ok _ _
              (mkNbRunAll (V2Main.relative_name root p) d')
              _ (mkWorld (<[p := NotebookFile d']> fs) h1));
    [reflexivity|].
  rewrite (bind_ok _ _ _ _ _
             (client_returns K t (mkNotebook (metadata d) (seq 0 (length (cells d))))
                (mkWorld fs (cells d)) Hf)).
  cbn [nb_cells heap disk]. fold h1. unfold set_heap; cbn [heap disk].
  rewrite (bind_ok _ _ _ _ _ (v2_write_nb_ok p _ (mkWorld fs h1)
             (not_below_stored fs p (mk_is_Some _ _ Hp)))).
  unfold mbind, M_bind, mret, M_ret, snapshot, set_disk; cbn [heap disk nb_cells nb_metadata].
  unfold d'. by rewrite (serialise_same_length _ _ _ E).
Qed.

(** X11. And so for the two full runs: without a fault, [nb_run_all]
    persists the file [run_all] persists and answers the same notebook,
    with the path relative to the notebook directory. *)
Theorem nb_run_all_agrees root K rel t p d fs :
  _safe_nb_path root rel = Ok p ->
  fs !! p = Some (NotebookFile d) ->
  ~ faulted K t (seq 0 (length (cells d))) (cells d) ->
  exists d',
    serve (run_all root K rel t) fs = (Ok d', <[p := NotebookFile d']> fs)
    /\ serve (V2Main.nb_run_all root K rel t) fs
       = (Ok (mkNbRunAll (V2Main.relative_name root p) d'), <[p := NotebookFile d']> fs).
Proof.
  intros Hs Hp Hf. eexists. split.
  - apply (run_all_stored root K rel t p d fs Hs Hp).
  - apply (nb_run_all_stored root K rel t p d fs Hs Hp Hf).
Qed.

Lemma nb_run_all_agrees_witness :
  exists d',
    serve (run_all demo_root echo_kernel "a" 120) (demo_fs fresh_doc)
      = (Ok d', <[demo_path := NotebookFile d']> (demo_fs fresh_doc))
    /\ serve (V2Main.nb_run_all demo_root echo_kernel "a" 120) (demo_fs fresh_doc)
       = (Ok (mkNbRunAll (V2Main.relative_name demo_root demo_path) d'),
          <[demo_path := NotebookFile d']> (demo_fs fresh_doc)).
Proof.
  apply (nb_run_all_agrees demo_root echo_kernel "a" 120 demo_path fresh_doc
           (demo_fs fresh_doc)).
  - vm_compute; reflexivity.
  - vm_compute; reflexivity.
  - intros H. vm_compute in H. discriminate H.
Defined.

(** The path the sibling answers. *)
Example relative_name_demo : V2Main.relative_name demo_root demo_path = "a.ipynb".
Proof. vm_compute. reflexivity. Qed.

(** ** More on [_outputs_to_text] and on [strip] *)

Lemma lstrip_no_leading s : leading_space (PyStr.lstrip s) = false.
Proof.
  induction s as [|c s IH]; [done|]. cbn [PyStr.lstrip].
  destruct (PyStr.isspace c) eqn:E; [done|]. simpl. exact E.
Qed.

Lemma rstrip_no_trailing s : trailing_space (PyStr.rstrip s) = false.
Proof.
  induction s as [|c s IH]; [done|]. cbn [PyStr.rstrip].
  destruct (PyStr.rstrip s) as [|c' r'] eqn:E.
  - destruct (PyStr.isspace c) eqn:Ec; [done|]. simpl. exact Ec.
  - exact IH.
Qed.

Lemma rstrip_keeps_leading s :
  leading_space s = false -> leading_space (PyStr.rstrip s) = false.
Proof.
  destruct s as [|c s]; [done|]. cbn [PyStr.rstrip leading_space]. intros Hc.
  destruct (PyStr.rstrip s); [by rewrite Hc|done].
Qed.

Lemma rstrip_fixed s : trailing_space s = false -> PyStr.rstrip s = s.
Proof.
  induction s as [|c s IH]; [done|]. cbn [PyStr.rstrip].
  destruct s as [|c' s'].
  - simpl. by intros ->.
  - intros H. rewrite IH by exact H. done.
Qed.

Lemma output_lines_flat (outs1 outs2 : list output) :
  flat_map output_lines (outs1 ++ outs2)
  = flat_map output_lines outs1 ++ flat_map output_lines outs2.
Proof. apply flat_map_app. Qed.

(** X12. The text [_outputs_to_text] returns never begins and never ends
    with a whitespace character, and stripping it again changes
    nothing. *)
Theorem outputs_to_text_is_stripped (outs : list output) :
  leading_space (_outputs_to_text outs) = false
  /\ trailing_space (_outputs_to_text outs) = false
  /\ PyStr.strip (_outputs_to_text outs) = _outputs_to_text outs.
Proof.
  unfold _outputs_to_text. cbv zeta.
  set (s := PyStr.join _ _).
  assert (H1 : leading_space (PyStr.strip s) = false)
    by apply rstrip_keeps_leading, lstrip_no_leading.
  assert (H2 : trailing_space (PyStr.strip s) = false) by apply rstrip_no_trailing.
  split; [done|]. split; [done|].
  unfold PyStr.strip at 1. rewrite (lstrip_fixed _ H1). by apply rstrip_fixed.
Qed.

(** X13. A record that is neither a stream nor an error and has no
    [text/plain] representation (an image, say) contributes nothing:
    dropping it from the outputs leaves the text as it is. *)
Theorem outputs_to_text_skips_unprintable (outs1 outs2 : list output) data :
  data !! "text/plain" = None ->
  _outputs_to_text (outs1 ++ Display data :: outs2) = _outputs_to_text (outs1 ++ outs2).
Proof.
  intros H. unfold _outputs_to_text. rewrite !outputs_lines_fold. simpl.
  rewrite !flat_map_app. simpl. by rewrite H.
Qed.

Lemma outputs_to_text_skips_unprintable_witness :
  _outputs_to_text ([Stream "stdout" (Text "a")]
                      ++ Display {[ "image/png" := Text "iVBOR" ]}
                      :: [Stream "stdout" (Text "b")])
  = _outputs_to_text ([Stream "stdout" (Text "a")] ++ [Stream "stdout" (Text "b")]).
Proof.
  apply (outputs_to_text_skips_unprintable [Stream "stdout" (Text "a")]
           [Stream "stdout" (Text "b")] {[ "image/png" := Text "iVBOR" ]}).
  vm_compute; reflexivity.
Defined.

(** ** Markdown cells under a run *)

Lemma faulted_or_not K t refs h : faulted K t refs h \/ ~ faulted K t refs h.
Proof.
  unfold faulted. destruct (kstart K) as [st|]; [|by left].
  destruct (execute_cells K t st refs h).2; [by right|by left].
Qed.

Lemma merged_fields c :
  ctype (merged c) = ctype c /\ source (merged c) = source c
  /\ get_outputs (merged c) = get_outputs c
  /\ get_execution_count (merged c) = get_execution_count c.
Proof. by destruct c. Qed.

Lemma markdown_as_stored_refl target d : markdown_as_stored target d d.
Proof. intros j c' Hj _. exists c'. auto. Qed.

Lemma markdown_as_stored_bare target d d' :
  markdown_as_stored target d d' -> markdown_bare d -> markdown_bare d'.
Proof.
  intros Hst Hd c' [j Hj]%list_elem_of_lookup Hm.
  destruct (Hst j c' Hj Hm) as (c & Hc & Ho & He & Hcase).
  assert (Hb : bare c).
  { apply Hd; [apply list_elem_of_lookup; eauto|].
    destruct Hcase as [<-|[_ ->]]; [done|]. by destruct c. }
  destruct Hb as [Hb1 Hb2]. split; congruence.
Qed.

Lemma executed_markdown_as_stored K t refs d :
  markdown_as_stored None d (mkDocument (metadata d) (executed_heap K t refs (cells d))).
Proof.
  intros j c' Hj Hm. cbn [cells] in Hj.
  apply executed_heap_markdown in Hj; [|done]. exists c'. auto.
Qed.

Lemma merged_markdown_as_stored K t (i : nat) d c1 :
  executed_heap K t (seq 0 (S i)) (cells d) !! i = Some c1 ->
  markdown_as_stored (Some i) d
    (mkDocument (metadata d) (<[i := merged c1]> (executed_heap K t (seq 0 (S i)) (cells d)))).
Proof.
  intros Hc1 j c' Hj Hm. cbn [cells] in Hj.
  apply list_lookup_insert_Some in Hj as [(-> & <- & Hlt)|[Hne Hj]].
  - destruct (merged_fields c1) as (Hty & _ & Ho & He).
    rewrite Hty in Hm. apply executed_heap_markdown in Hc1; [|done].
    exists c1. split; [done|]. split; [done|]. split; [done|]. by right.
  - apply executed_heap_markdown in Hj; [|done]. exists c'. auto.
Qed.

Lemma target_of_in_range idx d :
  0 <= idx < len (cells d) -> target_of idx d = Some (Z.to_nat idx).
Proof. intros H%len_bounds. unfold target_of. by rewrite H. Qed.




(** ** More on [_safe_nb_path] *)

(** X14. Every path [_safe_nb_path] returns below the root names a
    notebook file and is fully resolved: its last component ends with
    [.ipynb], and no component is empty, [.] or [..]. *)
Theorem safe_nb_path_names_a_notebook root rel p :
  _safe_nb_path root rel = Ok p ->
  p <> root ->
  Forall plain (parts p)
  /\ exists name, last (parts p) = Some name /\ PyStr.endswith name ".ipynb" = true.
Proof.
  intros Hok Hne.
  apply safe_nb_path_ok in Hok as (_ & Hp & [->|(Hd & cs & Hcs & Hparts)]); [done|].
  destruct (accepted_components root rel p cs Hp Hparts Hcs)
    as (_ & _ & cl & Hlast & Hcl).
  split.
  - subst p. apply resolve_go_is_plain. constructor.
  - exists cl. split; [|done]. rewrite Hparts, last_app. by rewrite Hlast.
Qed.

Lemma safe_nb_path_names_a_notebook_witness :
  Forall plain ["srv"; "notebooks"; "sub"; "a.ipynb"]
  /\ exists name, last ["srv"; "notebooks"; "sub"; "a.ipynb"] = Some name
                  /\ PyStr.endswith name ".ipynb" = true.
Proof.
  apply (safe_nb_path_names_a_notebook demo_root "  /x/../sub//a "
           (mkPath false ["srv"; "notebooks"; "sub"; "a.ipynb"])).
  - vm_compute; reflexivity.
  - discriminate.
Defined.

(** The extension *)

Lemma eqb_replace a b s suf :
  PyStr.contains a suf = false -> PyStr.contains b suf = false ->
  String.eqb (PyStr.replace a b s) suf = String.eqb s suf.
Proof.
  revert suf. induction s as [|c s IH]; intros suf Ha Hb; [done|].
  destruct suf as [|d suf]; [done|]. cbn [PyStr.replace String.eqb].
  cbn [PyStr.contains] in Ha, Hb.
  apply orb_false_iff in Ha as [Hda Ha], Hb as [Hdb Hb].
  rewrite IH by done.
  destruct (Ascii.eqb_spec c a) as [->|Hca]; [|done].
  rewrite (Ascii.eqb_sym b d), Hdb, (Ascii.eqb_sym a d), Hda. done.
Qed.

Lemma endswith_replace a b s suf :
  PyStr.contains a suf = false -> PyStr.contains b suf = false ->
  PyStr.endswith (PyStr.replace a b s) suf = PyStr.endswith s suf.
Proof.
  intros Ha Hb. induction s as [|c s IH].
  - cbn [PyStr.replace PyStr.endswith]. done.
  - cbn [PyStr.replace PyStr.endswith]. rewrite IH.
    change (String (if Ascii.eqb c a then b else c) (PyStr.replace a b s))
      with (PyStr.replace a b (String c s)).
    by rewrite eqb_replace.
Qed.

Lemma lstrip_char_suffix a s : exists pre, s = pre +:+ PyStr.lstrip_char a s.
Proof.
  induction s as [|c s IH]; [by exists ""|]. cbn [PyStr.lstrip_char].
  destruct (Ascii.eqb c a); [|by exists ""].
  destruct IH as [pre E]. exists (String c pre). rewrite append_cons. by f_equal.
Qed.

Lemma lstrip_suffix s : exists pre, s = pre +:+ PyStr.lstrip s.
Proof.
  induction s as [|c s IH]; [by exists ""|]. cbn [PyStr.lstrip].
  destruct (PyStr.isspace c); [|by exists ""].
  destruct IH as [pre E]. exists (String c pre). rewrite append_cons. by f_equal.
Qed.

Lemma lstrip_app s x :
  leading_space x = false -> trailing_space s = false ->
  PyStr.lstrip (s +:+ x) = PyStr.lstrip s +:+ x
  /\ trailing_space (PyStr.lstrip s) = false.
Proof.
  intros Hx. induction s as [|c s IH]; intros Hs.
  - rewrite append_nil_l. split; [by apply lstrip_fixed|done].
  - rewrite append_cons. cbn [PyStr.lstrip].
    destruct (PyStr.isspace c) eqn:Ec; [|done].
    apply IH. destruct s; [simpl in Hs; congruence|exact Hs].
Qed.

Lemma lstrip_char_app a s x :
  PyStr.startswith x (String a "") = false ->
  PyStr.lstrip_char a (s +:+ x) = PyStr.lstrip_char a s +:+ x.
Proof.
  intros Hx. induction s as [|c s IH].
  - rewrite append_nil_l. by apply lstrip_char_fixed.
  - rewrite append_cons. cbn [PyStr.lstrip_char]. by destruct (Ascii.eqb c a).
Qed.

Lemma replace_app a b s x :
  PyStr.replace a b (s +:+ x) = PyStr.replace a b s +:+ PyStr.replace a b x.
Proof.
  induction s as [|c s IH]; [done|].
  rewrite append_cons. cbn [PyStr.replace]. by rewrite append_cons, IH.
Qed.

(** X15. The extension is optional: for a request that does not end
    with whitespace and does not already end with [.ipynb], the request
    and the request followed by [.ipynb] resolve alike (the same path,
    or the same refusal). *)
Theorem safe_nb_path_extension_optional root rel :
  trailing_space rel = false ->
  PyStr.endswith rel ".ipynb" = false ->
  _safe_nb_path root (rel +:+ ".ipynb") = _safe_nb_path root rel.
Proof.
  intros Hts Hend.
  enough (E : normalize_rel (rel +:+ ".ipynb") = normalize_rel rel)
    by (unfold _safe_nb_path, resolved_target; by rewrite E).
  destruct (lstrip_app rel ".ipynb" eq_refl Hts) as [El Hts'].
  assert (Es : PyStr.strip (rel +:+ ".ipynb") = PyStr.strip rel +:+ ".ipynb").
  { unfold PyStr.strip. rewrite El, (rstrip_fixed _ Hts'). by apply rstrip_app. }
  unfold normalize_rel. cbv zeta.
  rewrite Es, (lstrip_char_app "/" _ ".ipynb" eq_refl), replace_app.
  change (PyStr.replace PyStr.backslash "/" ".ipynb") with ".ipynb".
  rewrite endswith_app.
  assert (Hr : PyStr.endswith
                 (PyStr.replace PyStr.backslash "/"
                    (PyStr.lstrip_char "/" (PyStr.strip rel))) ".ipynb" = false).
  { rewrite endswith_replace by done.
    destruct (PyStr.endswith (PyStr.lstrip_char "/" (PyStr.strip rel)) ".ipynb") eqn:E;
      [|done].
    destruct (lstrip_char_suffix "/" (PyStr.strip rel)) as [pre1 E1].
    destruct (lstrip_suffix rel) as [pre2 E2].
    assert (E3 : PyStr.strip rel = PyStr.lstrip rel)
      by (unfold PyStr.strip; by apply rstrip_fixed).
    rewrite <- Hend. rewrite E2, <- E3, E1. symmetry.
    by apply endswith_app_r, endswith_app_r. }
  by rewrite Hr.
Qed.

Lemma safe_nb_path_extension_optional_witness :
  _safe_nb_path demo_root ("sub/a" +:+ ".ipynb") = _safe_nb_path demo_root "sub/a".
Proof.
  apply (safe_nb_path_extension_optional demo_root "sub/a"); reflexivity.
Defined.

(** ** [suggest_fix] *)

Section IsIn.

Lemma prefix_nil s : String.prefix "" s = true.
Proof. by destruct s. Qed.

Lemma prefix_app sub a b : String.prefix sub a = true -> String.prefix sub (a +:+ b) = true.
Proof.
  revert a. induction sub as [|c sub IH]; intros a;
    [intros _; apply prefix_nil|].
  destruct a as [|d a]; [done|]. rewrite append_cons. cbn [String.prefix].
  destruct (ascii_dec c d); [apply IH|done].
Qed.

Lemma isin_app_l sub a b : PyStr2.isin sub a = true -> PyStr2.isin sub (a +:+ b) = true.
Proof.
  induction a as [|c a IH].
  - cbn [PyStr2.isin]. rewrite orb_false_r. intros H. rewrite append_nil_l.
    destruct sub; [by destruct b|done].
  - rewrite append_cons. cbn [PyStr2.isin].
    intros [H|H]%orb_true_iff; apply orb_true_iff.
    + left. by apply (prefix_app sub (String c a) b).
    + right. by apply IH.
Qed.

Lemma isin_app_r sub a b : PyStr2.isin sub b = true -> PyStr2.isin sub (a +:+ b) = true.
Proof.
  intros H. induction a as [|c a IH]; [done|].
  rewrite append_cons. cbn [PyStr2.isin]. rewrite IH. apply orb_true_r.
Qed.

Lemma isin_join sub sep (l : list string) x :
  x ∈ l -> PyStr2.isin sub x = true -> PyStr2.isin sub (PyStr.join sep l) = true.
Proof.
  intros Hx Hs. induction l as [|y l IH]; [by apply elem_of_nil in Hx|].
  apply elem_of_cons in Hx as [->|Hx].
  - destruct l; [done|]. by apply isin_app_l.
  - destruct l as [|z l]; [by apply elem_of_nil in Hx|].
    change (PyStr.join sep (y :: z :: l)) with (y +:+ sep +:+ PyStr.join sep (z :: l)).
    apply isin_app_r, isin_app_r. by apply IH.
Qed.

Lemma isin_nil sub : sub <> "" -> PyStr2.isin sub "" = false.
Proof. by destruct sub. Qed.

Lemma isin_lstrip sub s :
  sub <> "" -> leading_space sub = false ->
  PyStr2.isin sub s = true -> PyStr2.isin sub (PyStr.lstrip s) = true.
Proof.
  intros Hne Hl. induction s as [|c s IH]; [done|].
  cbn [PyStr.lstrip]. destruct (PyStr.isspace c) eqn:Ec; [|done].
  cbn [PyStr2.isin]. intros [H|H]%orb_true_iff; [|by apply IH].
  destruct sub as [|d sub]; [done|]. cbn [String.prefix] in H.
  destruct (ascii_dec d c) as [->|]; [|done]. simpl in Hl. congruence.
Qed.

Lemma prefix_rstrip sub s :
  PyStr2.no_space sub = true ->
  String.prefix sub s = true -> String.prefix sub (PyStr.rstrip s) = true.
Proof.
  revert sub. induction s as [|c s IH]; intros sub Hns H; [done|].
  destruct sub as [|d sub]; [apply prefix_nil|].
  cbn [String.prefix] in H. destruct (ascii_dec d c) as [->|]; [|done].
  cbn [PyStr2.no_space] in Hns. apply andb_true_iff in Hns as [Hc Hns].
  apply negb_true_iff in Hc.
  specialize (IH sub Hns H). cbn [PyStr.rstrip].
  destruct (PyStr.rstrip s) as [|c' r'].
  - rewrite Hc. cbn [String.prefix]. destruct (ascii_dec c c); [|done].
    destruct sub; [done|]. by destruct sub.
  - cbn [String.prefix]. by destruct (ascii_dec c c).
Qed.

Lemma isin_rstrip sub s :
  sub <> "" -> PyStr2.no_space sub = true ->
  PyStr2.isin sub s = true -> PyStr2.isin sub (PyStr.rstrip s) = true.
Proof.
  intros Hne Hns. induction s as [|c s IH]; [done|].
  cbn [PyStr2.isin]. intros [H|H]%orb_true_iff.
  - pose proof (prefix_rstrip sub (String c s) Hns H) as Hp.
    destruct (PyStr.rstrip (String c s)); cbn [PyStr2.isin]; by rewrite Hp.
  - specialize (IH H). cbn [PyStr.rstrip].
    destruct (PyStr.rstrip s) as [|c' r'] eqn:E.
    + by rewrite isin_nil in IH.
    + cbn [PyStr2.isin] in *. rewrite IH. apply orb_true_r.
Qed.

Lemma no_space_leading sub : PyStr2.no_space sub = true -> leading_space sub = false.
Proof.
  destruct sub as [|c sub]; [done|]. simpl.
  by intros [->%negb_true_iff _]%andb_true_iff.
Qed.

Lemma isin_strip sub s :
  sub <> "" -> PyStr2.no_space sub = true ->
  PyStr2.isin sub s = true -> PyStr2.isin sub (PyStr.strip s) = true.
Proof.
  intros Hne Hns H. unfold PyStr.strip. apply isin_rstrip; [done..|].
  apply isin_lstrip; [done|by apply no_space_leading|done].
Qed.

Lemma isspace_lower c : PyStr.isspace (PyStr2.lower_char c) = PyStr.isspace c.
Proof. destruct c as [[] [] [] [] [] [] [] []]; reflexivity. Qed.

Lemma lower_app a b : PyStr2.lower (a +:+ b) = PyStr2.lower a +:+ PyStr2.lower b.
Proof.
  induction a as [|c a IH]; [done|].
  rewrite append_cons. cbn [PyStr2.lower]. by rewrite append_cons, IH.
Qed.

Lemma lower_join sep (l : list string) :
  PyStr2.lower (PyStr.join sep l) = PyStr.join (PyStr2.lower sep) (map PyStr2.lower l).
Proof.
  induction l as [|x l IH]; [done|]. destruct l as [|y l]; [done|].
  change (PyStr.join sep (x :: y :: l)) with (x +:+ sep +:+ PyStr.join sep (y :: l)).
  rewrite !lower_app, IH. done.
Qed.

Lemma lower_lstrip s : PyStr2.lower (PyStr.lstrip s) = PyStr.lstrip (PyStr2.lower s).
Proof.
  induction s as [|c s IH]; [done|].
  cbn [PyStr.lstrip PyStr2.lower]. rewrite isspace_lower.
  by destruct (PyStr.isspace c).
Qed.

Lemma lower_rstrip s : PyStr2.lower (PyStr.rstrip s) = PyStr.rstrip (PyStr2.lower s).
Proof.
  induction s as [|c s IH]; [done|].
  cbn [PyStr.rstrip PyStr2.lower]. rewrite <- IH, isspace_lower.
  destruct (PyStr.rstrip s); [by destruct (PyStr.isspace c)|done].
Qed.

Lemma lower_strip s : PyStr2.lower (PyStr.strip s) = PyStr.strip (PyStr2.lower s).
Proof. unfold PyStr.strip. by rewrite lower_rstrip, lower_lstrip. Qed.

End IsIn.

(** An error record whose name mentions [error] puts it in the text. *)
Lemma outputs_text_mentions_error (outs : list output) en ev tb :
  Error en ev tb ∈ outs ->
  PyStr2.isin "error" (PyStr2.lower en) = true ->
  PyStr2.isin "error" (PyStr2.lower (_outputs_to_text outs)) = true
  /\ _outputs_to_text outs <> "".
Proof.
  intros Hin Hen.
  assert (H : PyStr2.isin "error" (PyStr2.lower (_outputs_to_text outs)) = true).
  { unfold _outputs_to_text. cbv zeta. rewrite outputs_lines_fold. simpl.
    rewrite lower_strip. apply isin_strip; [done..|].
    rewrite lower_join.
    apply (isin_join _ _ _ (PyStr2.lower (en +:+ ": " +:+ ev))).
    - apply list_elem_of_fmap. exists (en +:+ ": " +:+ ev). split; [done|].
      apply list_elem_of_In, in_flat_map. exists (Error en ev tb).
      split; [by apply list_elem_of_In|]. by left.
    - rewrite lower_app. by apply isin_app_l. }
  split; [done|]. intros E. rewrite E in H. discriminate H.
Qed.

Lemma suggest_prompt_stored root rel idx p d fs c :
  _safe_nb_path root rel = Ok p ->
  fs !! p = Some (NotebookFile d) ->
  0 <= idx < len (cells d) ->
  cells d !! Z.to_nat idx = Some c ->
  suggest_fix_prompt root rel idx (mkWorld fs [])
  = (Ok (suggest_prompt (source c) (_outputs_to_text (get_outputs c))),
     mkWorld fs (cells d)).
Proof.
  intros Hs Hp Hidx Hc. unfold suggest_fix_prompt.
  rewrite (bind_ok _ _ p (mkWorld fs []) (mkWorld fs [])) by (unfold lift; by rewrite Hs).
  rewrite (bind_ok _ _ _ _ _ (read_stored _ _ _ Hp)).
  cbn [nb_cells].
  assert (Hb : (idx <? 0) || (idx >=? len (seq 0 (length (cells d)))) = false).
  { apply len_bounds. unfold len in *. rewrite length_seq. lia. }
  rewrite Hb.
  set (w := mkWorld fs (cells d)).
  rewrite (bind_ok _ _ (Z.to_nat idx) w w)
    by (unfold item; rewrite lookup_seq_lt; [done|unfold len in Hidx; lia]).
  rewrite (bind_ok _ _ c w w) by (unfold deref; simpl; by rewrite Hc).
  reflexivity.
Qed.

Lemma suggest_prompt_bad_index root rel idx p d fs :
  _safe_nb_path root rel = Ok p ->
  fs !! p = Some (NotebookFile d) ->
  idx < 0 \/ len (cells d) <= idx ->
  suggest_fix_prompt root rel idx (mkWorld fs [])
  = (Raise (InvalidCellIndex idx (length (cells d))), mkWorld fs (cells d)).
Proof.
  intros Hs Hp Hidx. unfold suggest_fix_prompt.
  rewrite (bind_ok _ _ p (mkWorld fs []) (mkWorld fs [])) by (unfold lift; by rewrite Hs).
  rewrite (bind_ok _ _ _ _ _ (read_stored _ _ _ Hp)).
  cbn [nb_cells].
  assert (Hb : (idx <? 0) || (idx >=? len (seq 0 (length (cells d)))) = true).
  { destruct (_ || _) eqn:E; [done|]. apply len_bounds in E.
    unfold len in *. rewrite length_seq in E. lia. }
  rewrite Hb. unfold raise. by rewrite length_seq.
Qed.

(** X16. [suggest_fix] with an index out of range answers with the 400
    error without calling the model, whatever the model would say, and
    leaves the files as they are. *)
Theorem suggest_fix_rejects_bad_index root chat rel idx p d fs :
  _safe_nb_path root rel = Ok p ->
  fs !! p = Some (NotebookFile d) ->
  idx < 0 \/ len (cells d) <= idx ->
  serve_suggest (suggest_fix root chat rel idx) fs
  = (SuggestRaise (InvalidCellIndex idx (length (cells d))), fs)
  /\ status_code (InvalidCellIndex idx (length (cells d))) = 400.
Proof.
  intros Hs Hp Hidx. split; [|done]. unfold serve_suggest, suggest_fix.
  by rewrite (suggest_prompt_bad_index root rel idx p d fs Hs Hp Hidx).
Qed.

Lemma suggest_fix_rejects_bad_index_witness :
  serve_suggest (suggest_fix demo_root (fun _ => Some ["ok"]) "a" 3) (demo_fs fresh_doc)
  = (SuggestRaise (InvalidCellIndex 3 3), demo_fs fresh_doc).
Proof.
  apply (suggest_fix_rejects_bad_index demo_root (fun _ => Some ["ok"]) "a" 3
           demo_path fresh_doc (demo_fs fresh_doc)).
  - vm_compute; reflexivity.
  - vm_compute; reflexivity.
  - right. by vm_compute.
Defined.

(** X17. [suggest_fix] never changes a stored notebook: whatever the
    index and whatever the model answers (or if it fails), the files
    after the request are the files before. *)
Theorem suggest_fix_reads_only root chat rel idx p d fs :
  _safe_nb_path root rel = Ok p ->
  fs !! p = Some (NotebookFile d) ->
  (serve_suggest (suggest_fix root chat rel idx) fs).2 = fs.
Proof.
  intros Hs Hp. unfold serve_suggest, suggest_fix.
  destruct (decide (0 <= idx < len (cells d))) as [Hidx|Hidx].
  - assert (Hi : (Z.to_nat idx < length (cells d))%nat) by (unfold len in Hidx; lia).
    destruct (cells d !! Z.to_nat idx) as [c|] eqn:Hc;
      [|apply lookup_ge_None in Hc; lia].
    rewrite (suggest_prompt_stored root rel idx p d fs c Hs Hp Hidx Hc).
    by destruct (chat _).
  - rewrite (suggest_prompt_bad_index root rel idx p d fs Hs Hp); [done|lia].
Qed.

Lemma suggest_fix_reads_only_witness :
  (serve_suggest (suggest_fix demo_root (fun _ => None) "a" 0) (demo_fs fresh_doc)).2
  = demo_fs fresh_doc.
Proof.
  apply (suggest_fix_reads_only demo_root (fun _ => None) "a" 0 demo_path fresh_doc).
  - vm_compute; reflexivity.
  - vm_compute; reflexivity.
Defined.

(** X18. A cell with an error record whose name mentions [error] in any
    letter case (NameError, KeyError, ...) is sent to the model with the
    debugging prompt, built from its source and its output text; the
    answer is the stripped concatenation of the streamed parts. *)
Theorem suggest_fix_debugs_errors root chat rel idx p d fs c en ev tb :
  _safe_nb_path root rel = Ok p ->
  fs !! p = Some (NotebookFile d) ->
  0 <= idx < len (cells d) ->
  cells d !! Z.to_nat idx = Some c ->
  Error en ev tb ∈ get_outputs c ->
  PyStr2.isin "error" (PyStr2.lower en) = true ->
  serve_suggest (suggest_fix root chat rel idx) fs
  = (match chat (debug_prompt (source c) (_outputs_to_text (get_outputs c))) with
     | Some parts => Suggestion (PyStr.strip (PyStr.join "" parts))
     | None => SuggestionFailed
     end, fs).
Proof.
  intros Hs Hp Hidx Hc Hin Hen. unfold serve_suggest, suggest_fix.
  rewrite (suggest_prompt_stored root rel idx p d fs c Hs Hp Hidx Hc).
  destruct (outputs_text_mentions_error _ en ev tb Hin Hen) as [H1 H2].
  unfold suggest_prompt. rewrite H1. apply String.eqb_neq in H2. rewrite H2.
  cbn [negb andb orb]. by destruct (chat _).
Qed.

Lemma suggest_fix_debugs_errors_witness :
  serve_suggest (suggest_fix demo_root (fun _ => Some [" fix"; " it "]) "a" 0)
    (demo_fs name_error_doc)
  = (Suggestion "fix it", demo_fs name_error_doc).
Proof.
  apply (suggest_fix_debugs_errors demo_root (fun _ => Some [" fix"; " it "]) "a" 0
           demo_path name_error_doc (demo_fs name_error_doc) name_error_cell
           "NameError" "name 'z' is not defined" []).
  - vm_compute; reflexivity.
  - vm_compute; reflexivity.
  - by vm_compute.
  - reflexivity.
  - by left.
  - reflexivity.
Defined.

(** * Notes and sources of [v2main.py] *)

Section NotesFacts.

Import Notes.

Lemma find_note_none note_id (l : list note) :
  find_note note_id l = None <-> Forall (fun n => id n <> note_id) l.
Proof.
  induction l as [|n l IH]; simpl; [by split; [constructor|]|].
  destruct (String.eqb_spec (id n) note_id) as [E|E].
  - split; [done|]. by intros [? _]%Forall_cons.
  - rewrite IH. split; [by constructor|]. by intros [_ ?]%Forall_cons.
Qed.

Lemma update_first_none note_id nt nc now (l : list note) :
  update_first note_id nt nc now l = None <-> find_note note_id l = None.
Proof.
  induction l as [|n l IH]; simpl; [done|].
  destruct (String.eqb (id n) note_id); [done|].
  destruct (update_first note_id nt nc now l) as [[u l']|]; [|tauto].
  split; [done|]. intros H. apply IH in H. done.
Qed.

Lemma update_first_some note_id nt nc now (l : list note) n :
  find_note note_id l = Some n ->
  exists l',
    update_first note_id nt nc now l = Some (updated n nt nc now, l')
    /\ map id l' = map id l
    /\ find_note note_id l' = Some (updated n nt nc now)
    /\ forall other, other <> note_id -> find_note other l' = find_note other l.
Proof.
  induction l as [|m l IH]; simpl; [done|].
  destruct (String.eqb_spec (id m) note_id) as [E|E].
  - intros [= ->]. eexists. split; [done|]. simpl. rewrite E, String.eqb_refl.
    split; [done|]. split; [done|]. intros other Ho.
    by destruct (String.eqb_spec note_id other) as [->|].
  - intros Hf. destruct (IH Hf) as (l' & -> & Hids & Hfind & Hoth).
    eexists. split; [done|]. simpl. rewrite Hids.
    apply String.eqb_neq in E. rewrite E. split; [done|]. split; [done|].
    intros other Ho. by rewrite Hoth.
Qed.

Lemma find_note_filter note_id other (l : list note) :
  find_note other (List.filter (fun n => negb (String.eqb (id n) note_id)) l)
  = if String.eqb other note_id then None else find_note other l.
Proof.
  induction l as [|n l IH]; simpl; [by destruct (String.eqb other note_id)|].
  destruct (String.eqb_spec (id n) note_id) as [E|E]; simpl.
  - rewrite IH. destruct (String.eqb_spec other note_id) as [->|Ho]; [done|].
    destruct (String.eqb_spec (id n) other) as [E'|]; [congruence|done].
  - rewrite IH. destruct (String.eqb_spec (id n) other) as [E'|]; [|done].
    destruct (String.eqb_spec other note_id) as [->|Ho]; [done|done].
Qed.

End NotesFacts.

(** X19. Updating a note that does not exist answers 404 and changes
    nothing: neither the notes in memory nor any file. *)
Theorem update_note_unknown now note_id new_title new_content (st : Notes.state) :
  Forall (fun n => Notes.id n <> note_id) (Notes.notes_data st) ->
  Notes.update_note now note_id new_title new_content st
  = (Notes.HTTPError 404 "Note not found", st).
Proof.
  intros H. unfold Notes.update_note.
  apply find_note_none, (update_first_none note_id new_title new_content now) in H.
  by rewrite H.
Qed.

Lemma update_note_unknown_witness :
  Notes.update_note "2026-01-01T00:00:00Z" "n2" (Some "t") None
    (Notes.mkState [Notes.mkNote "n1" "a" "" "t0" "t0"] [] [] None None None)
  = (Notes.HTTPError 404 "Note not found",
     Notes.mkState [Notes.mkNote "n1" "a" "" "t0" "t0"] [] [] None None None).
Proof.
  apply (update_note_unknown "2026-01-01T00:00:00Z" "n2" (Some "t") None).
  repeat constructor. discriminate.
Defined.

(** X20. Updating an existing note changes the first note with that id
    and nothing else: the answer is that note with the given fields and
    the new time stamp, the ids keep their order, every other id still
    finds the note it found before, and the notes file holds the new
    list. *)
Theorem update_note_found now note_id new_title new_content (st : Notes.state) n :
  Notes.find_note note_id (Notes.notes_data st) = Some n ->
  exists st',
    Notes.update_note now note_id new_title new_content st
      = (Notes.Answer (Notes.updated n new_title new_content now), st')
    /\ map Notes.id (Notes.notes_data st') = map Notes.id (Notes.notes_data st)
    /\ Notes.get_note note_id st'
       = Notes.Answer (Notes.updated n new_title new_content now)
    /\ (forall other, other <> note_id -> Notes.get_note other st' = Notes.get_note other st)
    /\ Notes.NOTE_FILE st' = Some (Notes.notes_data st').
Proof.
  intros Hf. unfold Notes.update_note, Notes.get_note.
  destruct (update_first_some note_id new_title new_content now _ n Hf)
    as (l' & -> & Hids & Hfind & Hoth).
  eexists. split; [done|]. simpl. rewrite Hfind. split; [done|]. split; [done|].
  split; [|done]. intros other Ho. by rewrite Hoth.
Qed.

Lemma update_note_found_witness :
  exists st',
    Notes.update_note "t1" "n1" (Some "b") None
      (Notes.mkState [Notes.mkNote "n1" "a" "x" "t0" "t0"] [] [] None None None)
      = (Notes.Answer (Notes.mkNote "n1" "b" "x" "t0" "t1"), st').
Proof.
  destruct (update_note_found "t1" "n1" (Some "b") None
              (Notes.mkState [Notes.mkNote "n1" "a" "x" "t0" "t0"] [] [] None None None)
              (Notes.mkNote "n1" "a" "x" "t0" "t0") eq_refl) as (st' & H & _).
  exists st'. exact H.
Defined.

(** X21. [delete_note] of [v2main.py] never fails, also for an id that
    is not there; afterwards the id is not found, every other id finds
    the note it found before, and the notes file holds the new list. *)
Theorem delete_note_removes note_id (st : Notes.state) :
  (Notes.delete_note note_id st).1 = "Note deleted"
  /\ Notes.get_note note_id (Notes.delete_note note_id st).2
     = Notes.HTTPError 404 "Note not found"
  /\ (forall other, other <> note_id ->
        Notes.get_note other (Notes.delete_note note_id st).2 = Notes.get_note other st)
  /\ Notes.NOTE_FILE (Notes.delete_note note_id st).2
     = Some (Notes.notes_data (Notes.delete_note note_id st).2).
Proof.
  split; [done|]. unfold Notes.get_note, Notes.delete_note. simpl.
  split; [|split; [|done]].
  - by rewrite find_note_filter, String.eqb_refl.
  - intros other Ho. rewrite find_note_filter.
    apply String.eqb_neq in Ho. by rewrite Ho.
Qed.

(** X22. A created note is put first and is the one its id finds, also
    when an older note has the same id; every other id finds what it
    found before. *)
Theorem create_note_found new_id now req_title (st : Notes.state) :
  Notes.get_note new_id (Notes.create_note new_id now req_title st).2
    = Notes.Answer (Notes.create_note new_id now req_title st).1
  /\ Notes.notes_data (Notes.create_note new_id now req_title st).2
     = (Notes.create_note new_id now req_title st).1 :: Notes.notes_data st
  /\ (Notes.create_note new_id now req_title st).1
     = Notes.mkNote new_id req_title "" now now
  /\ (forall other, other <> new_id ->
        Notes.get_note other (Notes.create_note new_id now req_title st).2
        = Notes.get_note other st).
Proof.
  unfold Notes.get_note, Notes.create_note. simpl. rewrite String.eqb_refl.
  split; [done|]. split; [done|]. split; [done|].
  intros other Ho. apply not_eq_sym, String.eqb_neq in Ho. by rewrite Ho.
Qed.

(** X23. [add_sources] stores every url once: the answer has no
    duplicates, holds exactly the urls stored before and the urls
    given, and is what the sources file holds afterwards. *)
Theorem add_sources_is_a_union urls (st : Notes.state) :
  NoDup (Notes.add_sources urls st).1
  /\ (forall u, u ∈ (Notes.add_sources urls st).1
                <-> u ∈ Notes.url_history_data st \/ u ∈ urls)
  /\ Notes.url_history_data (Notes.add_sources urls st).2 = (Notes.add_sources urls st).1
  /\ Notes.SOURCE_FILE (Notes.add_sources urls st).2 = Some (Notes.add_sources urls st).1.
Proof.
  unfold Notes.add_sources, Notes.list_set. simpl.
  split; [apply NoDup_elements|]. split; [|done].
  intros u. rewrite elem_of_elements, elem_of_list_to_set, elem_of_app. done.
Qed.
Example safe_ok : _safe_nb_path demo_root "a/b" = Ok (mkPath false ["srv"; "notebooks"; "a"; "b.ipynb"]).
Proof. vm_compute. reflexivity. Qed.
Example safe_esc : _safe_nb_path demo_root "../../etc/passwd" = Raise InvalidPath.
Proof. vm_compute. reflexivity. Qed.
Example safe_bs :
  _safe_nb_path demo_root (String PyStr.backslash "etc" +:+ String PyStr.backslash "passwd") = Raise InvalidPath.
Proof. vm_compute. reflexivity. Qed.
Example safe_sp : _safe_nb_path demo_root "  /x/./y//z.ipynb " = Ok (mkPath false ["srv"; "notebooks"; "x"; "y"; "z.ipynb"]).
Proof. vm_compute. reflexivity. Qed.
Example safe_again : _safe_nb_path demo_root "/srv/notebooks/a.ipynb" = Ok (mkPath false ["srv"; "notebooks"; "srv"; "notebooks"; "a.ipynb"]).
Proof. vm_compute. reflexivity. Qed.
Example safe_double_backslash : _safe_nb_path demo_root double_backslash_path = Ok demo_path.
Proof. vm_compute. reflexivity. Qed.
Example safe_nul : _safe_nb_path demo_root (String PyStr.NUL "a") = Raise ValueError.
Proof. vm_compute. reflexivity. Qed.
